(** * Feature flags: override precedence, creation checks and analytics payload

    A shallow embedding of [features/models.py] and
    [integrations/heap/heap.py].  Django model instances are records, the
    tables they live in are lists of rows (or a finite map where the table is
    keyed by a one-to-one column), Python exceptions are values of an error
    monad, and dynamically typed Python values are the sum type [PyValue]. *)

From Stdlib Require Import ZArith String Ascii List Bool Lia.
From stdpp Require Import base option list strings gmap.

Local Open Scope Z_scope.
Local Open Scope string_scope.

(** ** Python values and truthiness *)

Inductive PyValue : Type :=
  | PyNone
  | PyBool (b : bool)
  | PyInt (n : Z)
  | PyStr (s : string).

#[global] Instance PyValue_eq_dec : EqDecision PyValue.
Proof. solve_decision. Defined.

(** [bool(v)]: [None], [False], [0] and the empty string are falsy. *)
Definition truthy (v : PyValue) : bool :=
  match v with
  | PyNone => false
  | PyBool b => b
  | PyInt n => negb (n =? 0)%Z
  | PyStr s => negb (String.eqb s "")
  end.

(** [v is False]. *)
Definition is_False (v : PyValue) : bool :=
  match v with
  | PyBool false => true
  | _ => false
  end.

(** A nullable reference to a model instance is truthy when it is set. *)
Definition is_set {A : Type} (o : option A) : bool :=
  match o with
  | Some _ => true
  | None => false
  end.

(** ** Exceptions *)

Inductive Exception : Type :=
  | ValueError (msg : string)
  | ValidationError (msg : string)
  | IntegrityError (constraint : string)
  | AttributeError (msg : string).

Inductive result (A : Type) : Type :=
  | Return (a : A)
  | Raise (e : Exception).

Arguments Return {A} a.
Arguments Raise {A} e.

#[global] Instance result_ret : MRet result := @Return.

#[global] Instance result_bind : MBind result :=
  λ A B k m,
    match m with
    | Return a => k a
    | Raise e => Raise e
    end.

Definition raised {A : Type} (m : result A) : bool :=
  match m with
  | Return _ => false
  | Raise _ => true
  end.

(** ** Case folding for [name__iexact]

    Names are byte strings; the lookup folds the ASCII letters. *)

Definition lower_ascii (c : ascii) : ascii :=
  let n := N_of_ascii c in
  if ((65 <=? n) && (n <=? 90))%N then ascii_of_N (n + 32) else c.

Fixpoint lower (s : string) : string :=
  match s with
  | EmptyString => EmptyString
  | String c s' => String (lower_ascii c) (lower s')
  end.

Definition iexact (a b : string) : bool := String.eqb (lower a) (lower b).

(** ** Helpers imported from [features.utils] and [features.value_types]

    These live outside the modelled files; the model is parametric in them. *)

Class FeatureUtils : Type := {
  INTEGER : string;
  STRING : string;
  BOOLEAN : string;
  get_value_type : PyValue → string;
  get_boolean_from_string : PyValue → PyValue;
  get_integer_from_string : PyValue → PyValue
}.

(** ** Feature *)

Module Feature.

Record t : Type := {
  pk : option Z;
  name : string;
  project : Z;
  initial_value : PyValue;
  default_enabled : bool
}.

#[global] Instance eq_dec : EqDecision t.
Proof. solve_decision. Defined.

(** Django's [Model.__eq__]: saved instances are equal when their primary keys
    are; an unsaved instance is equal only to itself. *)
Definition __eq__ (self other : t) : bool :=
  match pk self with
  | None => bool_decide (self = other)
  | Some k => bool_decide (pk other = Some k)
  end.

(** [Meta.unique_together = ("name", "project")], as checked by the inherited
    [validate_unique]: an exact match on both columns, the row being edited
    left out. *)
Definition unique_together_taken (objects : list t) (self : t) : bool :=
  existsb
    (λ r, bool_decide (name r = name self) && (project r =? project self)%Z
          && negb (is_set (pk self) && bool_decide (pk r = pk self)))
    objects.

(** [Feature.objects.filter(project=self.project, name__iexact=self.name)
       .exclude(pk=self.pk).exists()] *)
Definition iexact_taken (objects : list t) (self : t) : bool :=
  existsb
    (λ r, negb (bool_decide (pk r = pk self)))
    (List.filter (λ r, (project r =? project self)%Z && iexact (name r) (name self))
                 objects).

Definition unique_together_message : string :=
  "Feature with this Name and Project already exists.".

Definition case_insensitive_message : string :=
  "Feature with that name already exists for this project. Note that feature names are case insensitive.".

Definition validate_unique (objects : list t) (self : t) : result unit :=
  if unique_together_taken objects self then
    Raise (ValidationError unique_together_message)
  else if iexact_taken objects self then
    Raise (ValidationError case_insensitive_message)
  else Return tt.

End Feature.

(** ** FeatureSegment *)

Module FeatureSegment.

Record t : Type := {
  pk : option Z;
  feature : Z;
  segment : Z;
  environment : Z;
  priority : Z
}.

#[global] Instance eq_dec : EqDecision t.
Proof. solve_decision. Defined.

(** [return other and self.priority > other.priority]: the falsy [other]
    itself when it is [None], the comparison otherwise. *)
Definition __lt__ (self : t) (other : option t) : PyValue :=
  match other with
  | None => PyNone
  | Some o => PyBool (priority self >? priority o)%Z
  end.

(** [order_by("-priority")] *)
Fixpoint insert_by_priority (x : t) (l : list t) : list t :=
  match l with
  | [] => [x]
  | y :: l' =>
      if (priority y <=? priority x)%Z then x :: l
      else y :: insert_by_priority x l'
  end.

Definition order_by_priority_desc (l : list t) : list t :=
  foldr insert_by_priority [] l.

End FeatureSegment.

Definition get_next_segment_priority
    (objects : list FeatureSegment.t) (feature : Feature.t) : result Z :=
  let feature_segments :=
    FeatureSegment.order_by_priority_desc
      (List.filter
         (λ r, bool_decide (Some (FeatureSegment.feature r) = Feature.pk feature))
         objects) in
  if (length feature_segments =? 0)%nat then Return 1
  else
    match head feature_segments with
    | Some first => Return (FeatureSegment.priority first + 1)
    | None => Raise (AttributeError "'NoneType' object has no attribute 'priority'")
    end.

(** ** FeatureStateValue *)

Module FeatureStateValue.

(** The slots are Python attributes: they hold whatever was assigned. *)
Record t : Type := {
  feature_state : Z;
  type : PyValue;
  boolean_value : PyValue;
  integer_value : PyValue;
  string_value : PyValue
}.

Section Manager.
Context `{FeatureUtils}.

(** [FeatureStateValue(feature_state=..., **kwargs)]; [type] defaults to
    [STRING], the value columns to [None]. *)
Definition create (feature_state : Z) (kwargs : gmap string PyValue) : t :=
  {| feature_state := feature_state;
     type := default (PyStr STRING) (kwargs !! "type");
     boolean_value := default PyNone (kwargs !! "boolean_value");
     integer_value := default PyNone (kwargs !! "integer_value");
     string_value := default PyNone (kwargs !! "string_value") |}.

(** [objects.get_or_create(feature_state=..., defaults=...)] on the table keyed
    by its one-to-one column. *)
Definition get_or_create (objects : gmap Z t) (feature_state : Z)
    (defaults : option (gmap string PyValue)) : gmap Z t :=
  match objects !! feature_state with
  | Some _ => objects
  | None => <[feature_state := create feature_state (default ∅ defaults)]> objects
  end.

End Manager.

End FeatureStateValue.

(** ** FeatureState *)

Module FeatureState.

Record t : Type := {
  pk : option Z;
  feature : Feature.t;
  environment : option Z;
  identity : option Z;
  feature_segment : option FeatureSegment.t;
  enabled : bool
}.

#[global] Instance eq_dec : EqDecision t.
Proof. solve_decision. Defined.

Definition with_pk (k : Z) (self : t) : t :=
  {| pk := Some k;
     feature := feature self;
     environment := environment self;
     identity := identity self;
     feature_segment := feature_segment self;
     enabled := enabled self |}.

(** *** Precedence *)

Definition __gt__ (self other : t) : result bool :=
  if negb (bool_decide (environment self = environment other)) then
    Raise (ValueError
      "Cannot compare feature states as they belong to different environments.")
  else if negb (Feature.__eq__ (feature self) (feature other)) then
    Raise (ValueError
      "Cannot compare feature states as they belong to different features.")
  else if is_set (identity self) then
    if is_set (identity other)
       && negb (bool_decide (identity self = identity other)) then
      Raise (ValueError
        "Cannot compare feature states as they are for different identities.")
    else Return true
  else
    match feature_segment self with
    | Some self_feature_segment =>
        Return (negb (is_set (identity other)
                      || truthy (FeatureSegment.__lt__ self_feature_segment
                                   (feature_segment other))))
    | None =>
        Return (negb (is_set (feature_segment other) || is_set (identity other)))
    end.

(** *** The tables behind [save] *)

Record Database : Type := {
  feature_states : list t;
  feature_state_values : gmap Z FeatureStateValue.t;
  webhooks : list t
}.

(** Column equality inside a unique index: [NULL] matches nothing. *)
Definition sql_eq (a b : option Z) : bool :=
  match a, b with
  | Some x, Some y => (x =? y)%Z
  | _, _ => false
  end.

Definition feature_segment_id (r : t) : option Z :=
  fs ← feature_segment r; FeatureSegment.pk fs.

(** [Meta.constraints]: the first constraint that row [r] and the row being
    written would break together. *)
Definition conflict (r self : t) : option string :=
  let scope :=
    sql_eq (environment r) (environment self)
    && sql_eq (Feature.pk (feature r)) (Feature.pk (feature self)) in
  if negb (is_set (identity r)) && negb (is_set (identity self))
     && scope && sql_eq (feature_segment_id r) (feature_segment_id self)
  then Some "unique_for_feature_segment"
  else if negb (is_set (feature_segment r)) && negb (is_set (feature_segment self))
     && scope && sql_eq (identity r) (identity self)
  then Some "unique_for_identity"
  else if negb (is_set (identity r)) && negb (is_set (identity self))
     && negb (is_set (feature_segment r)) && negb (is_set (feature_segment self))
     && scope
  then Some "unique_for_environment"
  else None.

Fixpoint violated (rows : list t) (self : t) : option string :=
  match rows with
  | [] => None
  | r :: rows' =>
      match conflict r self with
      | Some c => Some c
      | None => violated rows' self
      end
  end.

(** The next value of the auto-increment primary key. *)
Definition next_pk (rows : list t) : Z :=
  1 + foldr (λ r m, Z.max (default 0 (pk r)) m) 0 rows.

(** The inherited [Model.save]: an [UPDATE] of the row with this primary key
    when there is one, an [INSERT] otherwise; the unique constraints are
    checked against every other row.  Returns the table and the primary key
    the instance has afterwards. *)
Definition Model_save (rows : list t) (self : t) : result (list t * Z) :=
  match pk self with
  | Some k =>
      let others := List.filter (λ r, negb (bool_decide (pk r = Some k))) rows in
      match violated others self with
      | Some c => Raise (IntegrityError c)
      | None =>
          if existsb (λ r, bool_decide (pk r = Some k)) rows then
            Return (map (λ r, if bool_decide (pk r = Some k) then self else r) rows, k)
          else Return ((rows ++ [self])%list, k)
      end
  | None =>
      match violated rows self with
      | Some c => Raise (IntegrityError c)
      | None =>
          let k := next_pk rows in
          Return ((rows ++ [with_pk k self])%list, k)
      end
  end.

(** [not self.pk] *)
Definition pk_falsy (self : t) : bool :=
  match pk self with
  | None => true
  | Some k => (k =? 0)%Z
  end.

(** [FeatureState.objects.filter(environment=self.environment,
      feature=self.feature).exists()] *)
Definition exists_for_environment_and_feature (rows : list t) (self : t) : bool :=
  existsb
    (λ r, bool_decide (environment r = environment self)
          && bool_decide (Feature.pk (feature r) = Feature.pk (feature self)))
    rows.

Definition duplicate_message : string :=
  "Feature state already exists for this environment and feature".

Section Methods.
Context `{FeatureUtils}.

Definition get_feature_state_value
    (values : gmap Z FeatureStateValue.t) (self : t) : PyValue :=
  match k ← pk self; values !! k with
  | None => PyNone
  | Some feature_state_value =>
      let value_type := FeatureStateValue.type feature_state_value in
      let type_mapping : gmap string PyValue :=
        <[BOOLEAN := FeatureStateValue.boolean_value feature_state_value]>
          (<[STRING := FeatureStateValue.string_value feature_state_value]>
             (<[INTEGER := FeatureStateValue.integer_value feature_state_value]> ∅)) in
      match value_type with
      | PyStr tag => default PyNone (type_mapping !! tag)
      | _ => PyNone
      end
  end.

Definition get_feature_state_key_name (fsv_type : string) : string :=
  let names : gmap string string :=
    <[STRING := "string_value"]>
      (<[BOOLEAN := "boolean_value"]>
         (<[INTEGER := "integer_value"]> ∅)) in
  default "string_value" (names !! fsv_type).

Definition _get_feature_state_defaults (self : t) : option (gmap string PyValue) :=
  let initial_value := Feature.initial_value (feature self) in
  if negb (truthy initial_value || is_False initial_value) then None
  else
    let value := initial_value in
    let type := get_value_type value in
    let defaults : gmap string PyValue := {[ "type" := PyStr type ]} in
    let key_name := get_feature_state_key_name type in
    if String.eqb type BOOLEAN then
      Some (<[key_name := get_boolean_from_string value]> defaults)
    else if String.eqb type INTEGER then
      Some (<[key_name := get_integer_from_string value]> defaults)
    else Some (<[key_name := value]> defaults).

(** [trigger_feature_state_change_webhooks(self)]: the dispatcher is outside
    the modelled files; the model records each call. *)
Definition trigger_feature_state_change_webhooks (calls : list t) (self : t) : list t :=
  (calls ++ [self])%list.

Definition save (db : Database) (self : t) : result (Database * t) :=
  if pk_falsy self
     && exists_for_environment_and_feature (feature_states db) self
     && negb (is_set (identity self) || is_set (feature_segment self))
  then Raise (ValidationError duplicate_message)
  else
    '(rows, k) ← Model_save (feature_states db) self;
    let self := with_pk k self in
    let values :=
      FeatureStateValue.get_or_create (feature_state_values db) k
        (_get_feature_state_defaults self) in
    mret ({| feature_states := rows;
             feature_state_values := values;
             webhooks := trigger_feature_state_change_webhooks (webhooks db) self |},
          self).

End Methods.

End FeatureState.

(** ** The Heap analytics wrapper *)

Module HeapWrapper.

Record t : Type := {
  api_key : string;
  url : string
}.

Record UserData : Type := {
  app_id : string;
  identity : PyValue;
  event : string;
  properties : gmap string PyValue
}.

Section Methods.
Context `{FeatureUtils}.

(** One turn of the loop over [feature_states]. *)
Definition set_property (values : gmap Z FeatureStateValue.t)
    (feature_properties : gmap string PyValue) (feature_state : FeatureState.t)
    : gmap string PyValue :=
  let value := FeatureState.get_feature_state_value values feature_state in
  <[Feature.name (FeatureState.feature feature_state) :=
      if FeatureState.enabled feature_state && truthy value then value
      else PyBool (FeatureState.enabled feature_state)]> feature_properties.

Definition generate_user_data (values : gmap Z FeatureStateValue.t) (self : t)
    (user_id : PyValue) (feature_states : list FeatureState.t) : UserData :=
  let feature_properties := foldl (set_property values) ∅ feature_states in
  {| app_id := api_key self;
     identity := user_id;
     event := "Flagsmith Feature Flags";
     properties := feature_properties |}.

End Methods.

End HeapWrapper.

(** ** The specification's reference definitions *)

(** The comparator's result as the specification names it. *)
Inductive Outcome : Type :=
  | Outranks (b : bool)
  | IncomparableError.

(** [compare(a, b)]: [a] outranks [b] iff [a.priority < b.priority]. *)
Definition SegmentOverride_outranks (a b : FeatureSegment.t) : bool :=
  (FeatureSegment.priority a <? FeatureSegment.priority b)%Z.

Definition incomparable (a b : FeatureState.t) : bool :=
  negb (bool_decide (FeatureState.environment a = FeatureState.environment b))
  || negb (Feature.__eq__ (FeatureState.feature a) (FeatureState.feature b))
  || match FeatureState.identity a, FeatureState.identity b with
     | Some i, Some j => negb (i =? j)%Z
     | _, _ => false
     end.

(** The four steps of [outranks(self, other)]. *)
Definition outranks_spec (a b : FeatureState.t) : Outcome :=
  if incomparable a b then IncomparableError
  else
    match FeatureState.identity a with
    | Some _ => Outranks true
    | None =>
        match FeatureState.feature_segment a with
        | Some sa =>
            Outranks
              (negb (is_set (FeatureState.identity b))
               && negb match FeatureState.feature_segment b with
                       | Some sb => SegmentOverride_outranks sb sa
                       | None => false
                       end)
        | None =>
            Outranks
              (negb (is_set (FeatureState.feature_segment b))
               && negb (is_set (FeatureState.identity b)))
        end
    end.

(** The precedence level two states share: the same identity, or segment
    overrides of one priority, or both environment defaults. *)
Definition same_precedence (a b : FeatureState.t) : Prop :=
  match FeatureState.identity a, FeatureState.identity b with
  | Some i, Some j => i = j
  | None, None =>
      match FeatureState.feature_segment a, FeatureState.feature_segment b with
      | Some sa, Some sb => FeatureSegment.priority sa = FeatureSegment.priority sb
      | None, None => True
      | _, _ => False
      end
  | _, _ => False
  end.

(** One (feature, environment) scope. *)
Definition same_scope (a b : FeatureState.t) : Prop :=
  FeatureState.environment a = FeatureState.environment b
  ∧ Feature.__eq__ (FeatureState.feature a) (FeatureState.feature b) = true.

Definition comparable (a b : FeatureState.t) : Prop := incomparable a b = false.

(** [feature_state.feature.name] *)
Definition feature_name (fs : FeatureState.t) : string :=
  Feature.name (FeatureState.feature fs).

(** Row [r] belongs to the (environment, feature) pair of [self]. *)
Definition same_environment_and_feature (r self : FeatureState.t) : Prop :=
  FeatureState.environment r = FeatureState.environment self
  ∧ Feature.pk (FeatureState.feature r) = Feature.pk (FeatureState.feature self).

Definition is_default (a : FeatureState.t) : Prop :=
  FeatureState.identity a = None ∧ FeatureState.feature_segment a = None.

(** The largest priority among some overrides, [None] when there are none. *)
Fixpoint max_priority (l : list FeatureSegment.t) : option Z :=
  match l with
  | [] => None
  | r :: l' =>
      Some match max_priority l' with
           | Some m => Z.max (FeatureSegment.priority r) m
           | None => FeatureSegment.priority r
           end
  end.

Definition of_feature (objects : list FeatureSegment.t) (feature : Feature.t)
    : list FeatureSegment.t :=
  List.filter
    (λ r, bool_decide (Some (FeatureSegment.feature r) = Feature.pk feature))
    objects.



(** ** Creating a segment override

    [FeatureSegment] has no [save] of its own: a row is created by the
    inherited [OrderedModelBase.save], which numbers it within the rows that
    share its [order_with_respect_to] fields. *)





(** ** An instance of the imported helpers *)

Definition is_digit (c : ascii) : bool :=
  let n := N_of_ascii c in ((48 <=? n) && (n <=? 57))%N.

Fixpoint all_digits (s : string) : bool :=
  match s with
  | EmptyString => true
  | String c s' => is_digit c && all_digits s'
  end.

Definition is_decimal_literal (s : string) : bool :=
  match s with
  | EmptyString => false
  | String "-" EmptyString => false
  | String "-" s' => all_digits s'
  | _ => all_digits s
  end.

Fixpoint digits_value (acc : Z) (s : string) : Z :=
  match s with
  | EmptyString => acc
  | String c s' => digits_value (10 * acc + Z.of_N (N_of_ascii c - 48)) s'
  end.

Definition decimal_value (s : string) : Z :=
  match s with
  | String "-" s' => - digits_value 0 s'
  | _ => digits_value 0 s
  end.

Definition is_boolean_literal (s : string) : bool :=
  String.eqb (lower s) "true" || String.eqb (lower s) "false".

(** Modelled from the spec: [features.utils] and [features.value_types] are
    not among the modelled files.  Boolean parsing accepts the case-insensitive
    literals true and false, integer parsing accepts decimal literals, and
    anything else is a string.  The tags are the Python type names that
    [generate_feature_state_value_data] compares them with. *)
Definition spec_utils : FeatureUtils :=
  {| INTEGER := "int";
     STRING := "unicode";
     BOOLEAN := "bool";
     get_value_type := λ v,
       match v with
       | PyStr s =>
           if is_decimal_literal s then "int"
           else if is_boolean_literal s then "bool"
           else "unicode"
       | PyInt _ => "int"
       | PyBool _ => "bool"
       | PyNone => "unicode"
       end;
     get_boolean_from_string := λ v,
       match v with
       | PyStr s => PyBool (String.eqb (lower s) "true")
       | _ => PyBool (truthy v)
       end;
     get_integer_from_string := λ v,
       match v with
       | PyStr s => PyInt (decimal_value s)
       | PyBool b => PyInt (if b then 1 else 0)
       | _ => v
       end |}.

(** ** Sample rows *)

Definition feature_1 : Feature.t :=
  {| Feature.pk := Some 1; Feature.name := "Flag"; Feature.project := 1;
     Feature.initial_value := PyNone; Feature.default_enabled := false |}.

Definition segment_S1 : FeatureSegment.t :=
  {| FeatureSegment.pk := Some 1; FeatureSegment.feature := 1;
     FeatureSegment.segment := 1; FeatureSegment.environment := 1;
     FeatureSegment.priority := 1 |}.

Definition segment_S2 : FeatureSegment.t :=
  {| FeatureSegment.pk := Some 2; FeatureSegment.feature := 1;
     FeatureSegment.segment := 2; FeatureSegment.environment := 1;
     FeatureSegment.priority := 2 |}.




(** "FLAG", not yet saved, for a given project. *)
Definition new_FLAG (project : Z) : Feature.t :=
  {| Feature.pk := None; Feature.name := "FLAG"; Feature.project := project;
     Feature.initial_value := PyNone; Feature.default_enabled := false |}.

(** A state of [feature_1] in the given environment. *)
Definition state (pk : option Z) (environment : Z) (identity : option Z)
    (feature_segment : option FeatureSegment.t) (enabled : bool) : FeatureState.t :=
  {| FeatureState.pk := pk; FeatureState.feature := feature_1;
     FeatureState.environment := Some environment;
     FeatureState.identity := identity;
     FeatureState.feature_segment := feature_segment;
     FeatureState.enabled := enabled |}.

Definition default_state : FeatureState.t := state (Some 1) 1 None None false.
Definition state_S1 : FeatureState.t := state (Some 2) 1 None (Some segment_S1) true.
Definition state_S2 : FeatureState.t := state (Some 3) 1 None (Some segment_S2) true.
Definition identity_state : FeatureState.t := state (Some 4) 1 (Some 7) None true.

(** An unsaved default state of a feature created with the given initial
    value. *)
Definition new_state_with_initial_value (v : PyValue) : FeatureState.t :=
  {| FeatureState.pk := None;
     FeatureState.feature :=
       {| Feature.pk := Some 2; Feature.name := "Limit"; Feature.project := 1;
          Feature.initial_value := v; Feature.default_enabled := false |};
     FeatureState.environment := Some 1;
     FeatureState.identity := None;
     FeatureState.feature_segment := None;
     FeatureState.enabled := false |}.

(** A default state of [feature_1] that is being created. *)
Definition new_default (environment : Z) : FeatureState.t :=
  state None environment None None false.

Definition empty_db : FeatureState.Database :=
  {| FeatureState.feature_states := [];
     FeatureState.feature_state_values := ∅;
     FeatureState.webhooks := [] |}.

(** The tables holding the given feature states and nothing else. *)
Definition db_of (rows : list FeatureState.t) : FeatureState.Database :=
  {| FeatureState.feature_states := rows;
     FeatureState.feature_state_values := ∅;
     FeatureState.webhooks := [] |}.

(** The value row of [state_S1]: the string "blue". *)
Definition values_S1 : gmap Z FeatureStateValue.t :=
  {[ 2%Z := {| FeatureStateValue.feature_state := 2;
               FeatureStateValue.type := PyStr "unicode";
               FeatureStateValue.boolean_value := PyNone;
               FeatureStateValue.integer_value := PyNone;
               FeatureStateValue.string_value := PyStr "blue" |} ]}.

Definition heap : HeapWrapper.t :=
  {| HeapWrapper.api_key := "key"; HeapWrapper.url := "https://heapanalytics.com/api/track" |}.

(** The default row as edited in memory, before it is written back. *)
Definition default_state_edited : FeatureState.t := state (Some 1) 1 None None true.

(** ** [FeatureState.generate_feature_state_value_data] *)

(** [type(value).__name__] *)
Definition type_name (v : PyValue) : string :=
  match v with
  | PyNone => "NoneType"
  | PyBool _ => "bool"
  | PyInt _ => "int"
  | PyStr _ => "str"
  end.

(** [self.id] *)
Definition id_value (self : FeatureState.t) : PyValue :=
  match FeatureState.pk self with
  | Some k => PyInt k
  | None => PyNone
  end.

Section ValueData.
Context `{FeatureUtils}.

(** [fsv_type in accepted_types] *)
Definition accepted (fsv_type : string) : bool :=
  existsb (String.eqb fsv_type) [STRING; INTEGER; BOOLEAN].

Definition generate_feature_state_value_data (self : FeatureState.t)
    (value : PyValue) : gmap string PyValue :=
  let fsv_type := type_name value in
  <[FeatureState.get_feature_state_key_name fsv_type := value]>
    (<["feature_state" := id_value self]>
       (<["type" := PyStr (if accepted fsv_type then fsv_type else STRING)]> ∅)).

End ValueData.

(** The three type tags are different strings. *)
Definition distinct_tags `{FeatureUtils} : Prop :=
  INTEGER ≠ STRING ∧ INTEGER ≠ BOOLEAN ∧ STRING ≠ BOOLEAN.

(** ** [Feature.save] and the tables it works on *)

(** What can stop [Feature.save]: an exception of [FeatureState.save] or of
    the write of the feature row, or one of the two exceptions of a [get]. *)
Inductive DjangoError : Type :=
  | Raised (e : Exception)
  | DoesNotExist
  | MultipleObjectsReturned.

Inductive outcome (A : Type) : Type :=
  | Done (a : A)
  | Failed (e : DjangoError).

Arguments Done {A} a.
Arguments Failed {A} e.

#[global] Instance outcome_ret : MRet outcome := @Done.

#[global] Instance outcome_bind : MBind outcome :=
  λ A B k m,
    match m with
    | Done a => k a
    | Failed e => Failed e
    end.

Definition lift {A : Type} (m : result A) : outcome A :=
  match m with
  | Return a => Done a
  | Raise e => Failed (Raised e)
  end.

(** [for x in l: s = f(s, x)], stopping at the first exception. *)
Fixpoint for_each {S A : Type} (f : S → A → outcome S) (s : S) (l : list A)
    : outcome S :=
  match l with
  | [] => Done s
  | x :: l' => s' ← f s x; for_each f s' l'
  end.

Definition Feature_with_pk (k : Z) (self : Feature.t) : Feature.t :=
  {| Feature.pk := Some k;
     Feature.name := Feature.name self;
     Feature.project := Feature.project self;
     Feature.initial_value := Feature.initial_value self;
     Feature.default_enabled := Feature.default_enabled self |}.

Definition Feature_next_pk (rows : list Feature.t) : Z :=
  1 + foldr (λ r m, Z.max (default 0 (Feature.pk r)) m) 0 rows.

(** The unique index of the feature table: [Meta.unique_together], which the
    note next to it says is on the lowercase name. *)
Definition Feature_name_taken (rows : list Feature.t) (self : Feature.t) : bool :=
  existsb
    (λ r, (Feature.project r =? Feature.project self)%Z
          && iexact (Feature.name r) (Feature.name self))
    rows.

(** The inherited [Model.save] on the feature table. *)
Definition Feature_Model_save (rows : list Feature.t) (self : Feature.t)
    : result (list Feature.t * Z) :=
  match Feature.pk self with
  | Some k =>
      let others :=
        List.filter (λ r, negb (bool_decide (Feature.pk r = Some k))) rows in
      if Feature_name_taken others self then
        Raise (IntegrityError "unique_together")
      else if existsb (λ r, bool_decide (Feature.pk r = Some k)) rows then
        Return (map (λ r, if bool_decide (Feature.pk r = Some k) then self else r)
                    rows, k)
      else Return ((rows ++ [self])%list, k)
  | None =>
      if Feature_name_taken rows self then
        Raise (IntegrityError "unique_together")
      else
        let k := Feature_next_pk rows in
        Return ((rows ++ [Feature_with_pk k self])%list, k)
  end.

(** [if self.pk:] *)
Definition Feature_pk_truthy (self : Feature.t) : bool :=
  match Feature.pk self with
  | Some k => negb (k =? 0)%Z
  | None => false
  end.

(** The feature table, the environments of each project (by primary key) and
    the tables of [FeatureState]. *)
Record World : Type := {
  features : list Feature.t;
  environments : gmap Z (list Z);
  states : FeatureState.Database
}.

(** [project.environments.all()] *)
Definition project_environments (w : World) (project : Z) : list Z :=
  default [] (environments w !! project).

(** A row selected by [filter(feature=feature, environment__in=envs)]. *)
Definition in_environments (feature : Feature.t) (envs : list Z)
    (r : FeatureState.t) : bool :=
  bool_decide (Feature.pk (FeatureState.feature r) = Feature.pk feature)
  && match FeatureState.environment r with
     | Some e => bool_decide (e ∈ envs)
     | None => false
     end.

(** [.delete()] on that selection; the value rows go with their states
    ([on_delete=models.CASCADE]). *)
Definition delete_feature_states (db : FeatureState.Database)
    (feature : Feature.t) (envs : list Z) : FeatureState.Database :=
  let deleted :=
    List.filter (in_environments feature envs) (FeatureState.feature_states db) in
  {| FeatureState.feature_states :=
       List.filter (λ r, negb (in_environments feature envs r))
                   (FeatureState.feature_states db);
     FeatureState.feature_state_values :=
       foldr (λ r values,
                match FeatureState.pk r with
                | Some k => delete k values
                | None => values
                end)
             (FeatureState.feature_state_values db) deleted;
     FeatureState.webhooks := FeatureState.webhooks db |}.

(** A row selected by [get(feature=feature, environment=env, identity=None,
    feature_segment=None)]. *)
Definition is_default_of (feature : Feature.t) (env : Z) (r : FeatureState.t)
    : bool :=
  bool_decide (Feature.pk (FeatureState.feature r) = Feature.pk feature)
  && bool_decide (FeatureState.environment r = Some env)
  && negb (is_set (FeatureState.identity r))
  && negb (is_set (FeatureState.feature_segment r)).

Section Lifecycle.
Context `{FeatureUtils}.

(** [FeatureState.objects.update_or_create(feature=feature, environment=env,
    identity=None, feature_segment=None, defaults=defaults)].  The row found
    is written back with the entries of [defaults] set on it, its [feature]
    being the row of the feature table, which is [feature]; when there is
    none, a state is created from the lookup and [defaults]. *)
Definition update_or_create (db : FeatureState.Database) (feature : Feature.t)
    (env : Z) (defaults : gmap string bool) : outcome FeatureState.Database :=
  match List.filter (is_default_of feature env) (FeatureState.feature_states db) with
  | [] =>
      '(db', _) ← lift (FeatureState.save db
          {| FeatureState.pk := None;
             FeatureState.feature := feature;
             FeatureState.environment := Some env;
             FeatureState.identity := None;
             FeatureState.feature_segment := None;
             FeatureState.enabled := default false (defaults !! "enabled") |});
      Done db'
  | [obj] =>
      '(db', _) ← lift (FeatureState.save db
          {| FeatureState.pk := FeatureState.pk obj;
             FeatureState.feature := feature;
             FeatureState.environment := FeatureState.environment obj;
             FeatureState.identity := FeatureState.identity obj;
             FeatureState.feature_segment := FeatureState.feature_segment obj;
             FeatureState.enabled :=
               default (FeatureState.enabled obj) (defaults !! "enabled") |});
      Done db'
  | _ :: _ :: _ => Failed MultipleObjectsReturned
  end.

Definition Feature_save (w : World) (self : Feature.t)
    : outcome (World * Feature.t) :=
  '(feature_state_defaults, db) ←
    (if Feature_pk_truthy self then
       match find (λ r, bool_decide (Feature.pk r = Feature.pk self))
                  (features w) with
       | None => Failed DoesNotExist
       | Some old_feature =>
           if negb (Feature.project old_feature =? Feature.project self)%Z then
             Done ((∅ : gmap string bool),
                   delete_feature_states (states w) self
                     (project_environments w (Feature.project old_feature)))
           else Done (∅, states w)
       end
     else Done ({[ "enabled" := Feature.default_enabled self ]}, states w));
  '(rows, k) ← lift (Feature_Model_save (features w) self);
  let self := Feature_with_pk k self in
  db' ← for_each (λ db env, update_or_create db self env feature_state_defaults)
                 db (project_environments w (Feature.project self));
  Done ({| features := rows; environments := environments w; states := db' |},
        self).

End Lifecycle.

(** The columns of a row of the state table: the feature by its primary
    key, not by the instance cached on the row. *)
Definition columns (r : FeatureState.t)
    : option Z * option Z * option Z * option Z * option FeatureSegment.t * bool :=
  (FeatureState.pk r, Feature.pk (FeatureState.feature r),
   FeatureState.environment r, FeatureState.identity r,
   FeatureState.feature_segment r, FeatureState.enabled r).

(** A stored identity override without segment that holds the place of
    [self]: same environment, feature and identity, none of them null. *)
Definition identity_override_taken (rows : list FeatureState.t)
    (self : FeatureState.t) : Prop :=
  ∃ r e f i,
    In r rows
    ∧ FeatureState.feature_segment r = None
    ∧ FeatureState.environment r = Some e ∧ FeatureState.environment self = Some e
    ∧ Feature.pk (FeatureState.feature r) = Some f
    ∧ Feature.pk (FeatureState.feature self) = Some f
    ∧ FeatureState.identity r = Some i ∧ FeatureState.identity self = Some i.

(** A default row of [feature] in environment [env] that is switched off. *)
Definition disabled_default_of (feature : Feature.t) (env : Z)
    (r : FeatureState.t) : Prop :=
  Feature.pk (FeatureState.feature r) = Feature.pk feature
  ∧ FeatureState.environment r = Some env
  ∧ FeatureState.identity r = None
  ∧ FeatureState.feature_segment r = None
  ∧ FeatureState.enabled r = false.

(** The (environment, feature) pair an environment default stands for, both
    columns being set. *)
Definition default_key (r : FeatureState.t) : option (Z * Z) :=
  match FeatureState.identity r, FeatureState.feature_segment r,
        FeatureState.environment r, Feature.pk (FeatureState.feature r) with
  | None, None, Some e, Some f => Some (e, f)
  | _, _, _, _ => None
  end.

(** At most one default row per (environment, feature): two default rows for
    the same pair are the row of one primary key. *)
Definition one_default_per_scope (rows : list FeatureState.t) : Prop :=
  ∀ r1 r2 key,
    In r1 rows → In r2 rows →
    default_key r1 = Some key → default_key r2 = Some key →
    FeatureState.pk r1 = FeatureState.pk r2.

(** Primary keys are unique and no two defaults share a pair. *)
Definition well_keyed (rows : list FeatureState.t) : Prop :=
  NoDup (map FeatureState.pk rows) ∧ one_default_per_scope rows.

(** ** More sample rows *)

(** Project 1 with environments 1 and 2, project 2 with environment 3;
    [feature_1] has its default and a segment override in environment 1 and
    nothing yet in environment 2. *)
Definition sample_world : World :=
  {| features := [feature_1];
     environments := {[ 1%Z := [1%Z; 2%Z]; 2%Z := [3%Z] ]};
     states := db_of [default_state; state_S1] |}.

(** [feature_1] edited in memory: it now belongs to project 2. *)
Definition feature_1_moved : Feature.t :=
  {| Feature.pk := Some 1; Feature.name := "Flag"; Feature.project := 2;
     Feature.initial_value := PyNone; Feature.default_enabled := true |}.

(** "Beta", enabled by default, not yet saved, for project 1. *)
Definition new_Beta : Feature.t :=
  {| Feature.pk := None; Feature.name := "Beta"; Feature.project := 1;
     Feature.initial_value := PyNone; Feature.default_enabled := true |}.

(** Environment 1 holds an identity override of [feature_1] but no default. *)
Definition world_without_default : World :=
  {| features := [feature_1];
     environments := {[ 1%Z := [1%Z; 2%Z] ]};
     states := db_of [identity_state] |}.

(** An identity override of [feature_1] that is being created. *)
Definition new_identity_override : FeatureState.t := state None 1 (Some 7) None true.

(** [feature_1] edited in memory: only the case of its name changes. *)
Definition feature_1_renamed : Feature.t :=
  {| Feature.pk := Some 1; Feature.name := "FLAG"; Feature.project := 1;
     Feature.initial_value := PyNone; Feature.default_enabled := false |}.

(** * Precedence between feature states *)

Section Precedence.
Implicit Types a b : FeatureState.t.

Lemma Feature_eq_sym (f g : Feature.t) : Feature.__eq__ f g = Feature.__eq__ g f.
Proof.
  unfold Feature.__eq__.
  destruct (Feature.pk f) as [k|] eqn:Hf, (Feature.pk g) as [j|] eqn:Hg;
    repeat case_bool_decide; try reflexivity; congruence.
Qed.

Example identity_beats_segment_and_default :
  FeatureState.__gt__ identity_state state_S1 = Return true
  ∧ FeatureState.__gt__ identity_state default_state = Return true
  ∧ FeatureState.__gt__ state_S1 identity_state = Return false
  ∧ FeatureState.__gt__ default_state identity_state = Return false.
Proof. split_and!; reflexivity. Qed.

Example other_environment_is_an_error :
  FeatureState.__gt__ default_state (new_default 2)
  = Raise (ValueError
      "Cannot compare feature states as they belong to different environments.").
Proof. reflexivity. Qed.

(** C1. [__gt__] computes the specification's four-step [outranks]: it raises
    exactly when the reference is [IncomparableError] and returns the
    reference's verdict otherwise. *)
Theorem gt_is_outranks_spec a b :
  match FeatureState.__gt__ a b with
  | Return r => outranks_spec a b = Outranks r
  | Raise (ValueError _) => outranks_spec a b = IncomparableError
  | Raise _ => False
  end.
Proof.
  unfold FeatureState.__gt__, outranks_spec, incomparable.
  case_bool_decide as Henv; simpl; [|reflexivity].
  destruct (Feature.__eq__ _ _); simpl; [|reflexivity].
  destruct (FeatureState.identity a) as [i|] eqn:Ha; simpl.
  - destruct (FeatureState.identity b) as [j|] eqn:Hb; simpl; [|reflexivity].
    case_bool_decide as Hij; simpl.
    + injection Hij as ->. rewrite Z.eqb_refl. reflexivity.
    + destruct (Z.eqb_spec i j) as [->|]; [congruence|reflexivity].
  - destruct (FeatureState.feature_segment a) as [sa|]; simpl.
    + destruct (FeatureState.identity b); simpl; [reflexivity|].
      destruct (FeatureState.feature_segment b) as [sb|]; simpl; [|reflexivity].
      unfold SegmentOverride_outranks. rewrite Z.gtb_ltb. reflexivity.
    + destruct (FeatureState.identity b), (FeatureState.feature_segment b);
        reflexivity.
Qed.

(** C2. Between two segment overrides the comparison of [FeatureSegment] puts
    the one with the smaller priority number on top: the other one is below it
    exactly when its own number is larger, as the specification's [compare]
    says, and in one scope the state holding the smaller number outranks the
    state holding the larger one and is not outranked by it. *)
Theorem smaller_priority_outranks a b sa sb :
  FeatureState.feature_segment a = Some sa →
  FeatureState.feature_segment b = Some sb →
  (truthy (FeatureSegment.__lt__ sb (Some sa)) = true
     ↔ (FeatureSegment.priority sa < FeatureSegment.priority sb)%Z)
  ∧ truthy (FeatureSegment.__lt__ sb (Some sa)) = SegmentOverride_outranks sa sb
  ∧ (same_scope a b →
     FeatureState.identity a = None → FeatureState.identity b = None →
     (FeatureSegment.priority sa < FeatureSegment.priority sb)%Z →
     FeatureState.__gt__ a b = Return true
     ∧ FeatureState.__gt__ b a = Return false).
Proof.
  intros Ha Hb. split_and!.
  - simpl. rewrite Z.gtb_ltb. apply Z.ltb_lt.
  - simpl. unfold SegmentOverride_outranks. apply Z.gtb_ltb.
  - intros [Henv Hfeat] Hia Hib Hlt.
    unfold FeatureState.__gt__.
    rewrite <- Henv, (Feature_eq_sym (FeatureState.feature b)), Hfeat.
    rewrite bool_decide_eq_true_2 by reflexivity.
    rewrite Hia, Hib, Ha, Hb. simpl. rewrite !Z.gtb_ltb.
    rewrite (proj2 (Z.ltb_ge _ _)) by lia.
    rewrite (proj2 (Z.ltb_lt _ _)) by lia.
    split; reflexivity.
Qed.

Lemma smaller_priority_outranks_witness :
  FeatureSegment.priority segment_S1 = 1%Z
  ∧ FeatureSegment.priority segment_S2 = 2%Z
  ∧ FeatureState.__gt__ state_S1 state_S2 = Return true
  ∧ FeatureState.__gt__ state_S2 state_S1 = Return false.
Proof.
  split; [reflexivity|]. split; [reflexivity|].
  apply (smaller_priority_outranks state_S1 state_S2 segment_S1 segment_S2
           eq_refl eq_refl);
    [split; reflexivity | reflexivity | reflexivity | reflexivity].
Defined.

Lemma gt_true_inv a b :
  FeatureState.__gt__ a b = Return true →
  same_scope a b
  ∧ match FeatureState.identity a with
    | Some i => FeatureState.identity b = None ∨ FeatureState.identity b = Some i
    | None =>
        FeatureState.identity b = None
        ∧ match FeatureState.feature_segment a, FeatureState.feature_segment b with
          | Some sa, Some sb =>
              (FeatureSegment.priority sa ≤ FeatureSegment.priority sb)%Z
          | Some _, None => True
          | None, Some _ => False
          | None, None => True
          end
    end.
Proof.
  unfold FeatureState.__gt__, same_scope.
  case_bool_decide as Henv; simpl; [|discriminate].
  destruct (Feature.__eq__ _ _); simpl; [|discriminate].
  intros Hgt. split; [done|].
  destruct (FeatureState.identity a) as [i|]; simpl in Hgt.
  - destruct (FeatureState.identity b) as [j|]; [|by left]. simpl in Hgt.
    case_bool_decide as Hij; [|discriminate]. right. congruence.
  - destruct (FeatureState.identity b) as [j|].
    + destruct (FeatureState.feature_segment a), (FeatureState.feature_segment b);
        simpl in Hgt; discriminate.
    + split; [done|].
      destruct (FeatureState.feature_segment a) as [sa|],
               (FeatureState.feature_segment b) as [sb|]; simpl in Hgt; try done.
      rewrite Z.gtb_ltb in Hgt.
      destruct (Z.ltb_spec (FeatureSegment.priority sb) (FeatureSegment.priority sa));
        [discriminate|lia].
Qed.

(** C4 (amended). A default never outranks a state that is not a default, and
    outranking is one-way between states of different precedence: two states
    outrank each other only when they stand on the same level (one identity,
    segment overrides of one priority, or two defaults), and otherwise the
    outranked state gets [False] back, not an error. *)
Theorem gt_one_way_across_levels a b :
  (is_default a → ¬ is_default b → FeatureState.__gt__ a b ≠ Return true)
  ∧ (FeatureState.__gt__ a b = Return true →
     FeatureState.__gt__ b a = Return true → same_precedence a b)
  ∧ (FeatureState.__gt__ a b = Return true →
     ¬ same_precedence a b → FeatureState.__gt__ b a = Return false).
Proof.
  split_and!.
  - intros [Hi Hs] Hnd Hgt. apply gt_true_inv in Hgt as [_ Hgt].
    rewrite Hi, Hs in Hgt. destruct Hgt as [Hib Hgt]. apply Hnd. split; [done|].
    destruct (FeatureState.feature_segment b); done.
  - intros Hab Hba.
    apply gt_true_inv in Hab as [_ Hab]. apply gt_true_inv in Hba as [_ Hba].
    unfold same_precedence.
    destruct (FeatureState.identity a) as [i|], (FeatureState.identity b) as [j|];
      try (destruct Hab; congruence); try (destruct Hba; congruence).
    destruct Hab as [_ Hab], Hba as [_ Hba].
    destruct (FeatureState.feature_segment a), (FeatureState.feature_segment b);
      try done. lia.
  - intros Hab Hnp.
    pose proof (gt_true_inv _ _ Hab) as [[Henv Hfeat] Hinv].
    unfold FeatureState.__gt__.
    rewrite <- Henv, (Feature_eq_sym (FeatureState.feature b)), Hfeat.
    rewrite bool_decide_eq_true_2 by reflexivity. simpl.
    unfold same_precedence in Hnp.
    destruct (FeatureState.identity a) as [i|], (FeatureState.identity b) as [j|];
      simpl.
    + destruct Hinv as [?|Hj]; [done|]. injection Hj as ->. done.
    + destruct (FeatureState.feature_segment b), (FeatureState.feature_segment a);
        reflexivity.
    + destruct Hinv; done.
    + destruct Hinv as [_ Hinv].
      destruct (FeatureState.feature_segment a) as [sa|],
               (FeatureState.feature_segment b) as [sb|]; simpl; try done.
      rewrite Z.gtb_ltb.
      rewrite (proj2 (Z.ltb_lt _ _)); [reflexivity|].
      destruct (Z.eq_dec (FeatureSegment.priority sa) (FeatureSegment.priority sb));
        [done|lia].
Qed.

Lemma gt_one_way_across_levels_witness :
  FeatureState.__gt__ state_S1 default_state = Return true
  ∧ ¬ same_precedence state_S1 default_state
  ∧ FeatureState.__gt__ default_state state_S1 = Return false
  ∧ FeatureState.__gt__ default_state state_S1 ≠ Return true.
Proof.
  split; [reflexivity|]. split; [exact (λ H, H)|]. split.
  - apply (gt_one_way_across_levels state_S1 default_state);
      [reflexivity | exact (λ H, H)].
  - apply (gt_one_way_across_levels default_state state_S1);
      [split; reflexivity | intros [_ H]; discriminate H].
Defined.

(** C4, as stated, fails: the stored default and its edited copy are distinct,
    comparable, and each outranks the other. *)
Lemma gt_not_asymmetric :
  ¬ (∀ a b, a ≠ b → comparable a b →
       FeatureState.__gt__ a b = Return true →
       FeatureState.__gt__ b a ≠ Return true).
Proof.
  intros H.
  apply (H default_state default_state_edited);
    [discriminate | reflexivity | reflexivity | reflexivity].
Qed.

End Precedence.

(** * Priority of a new segment override *)

Section Priorities.
Implicit Types (l objects : list FeatureSegment.t) (feature : Feature.t).

Example first_priority : get_next_segment_priority [] feature_1 = Return 1%Z.
Proof. reflexivity. Qed.

Example ordered_by_priority_desc :
  FeatureSegment.order_by_priority_desc [segment_S1; segment_S2]
  = [segment_S2; segment_S1].
Proof. reflexivity. Qed.

(** [max_priority] is the greatest priority present. *)
Lemma max_priority_greatest l m :
  max_priority l = Some m ↔
  (∃ r, In r l ∧ FeatureSegment.priority r = m)
  ∧ (∀ r, In r l → (FeatureSegment.priority r ≤ m)%Z).
Proof.
  revert m. induction l as [|x l IH]; intros m; simpl.
  - split; [discriminate|]. intros [[r [[] _]] _].
  - destruct (max_priority l) as [n|] eqn:Hl.
    + destruct (proj1 (IH n) eq_refl) as [[r [Hr Hrn]] Hle]. split.
      * intros [= <-]. split.
        -- destruct (Z.max_spec (FeatureSegment.priority x) n) as [[_ ->]|[_ ->]];
             eauto.
        -- intros r' [<-|Hr']; [lia|]. specialize (Hle _ Hr'). lia.
      * intros [[r' [Hr' <-]] Hub]. f_equal.
        pose proof (Hub x (or_introl eq_refl)). pose proof (Hub r (or_intror Hr)).
        destruct Hr' as [<-|Hr']; [lia|]. specialize (Hle _ Hr'). lia.
    + assert (l = []) as -> by (destruct l; [done|discriminate]). split.
      * intros [= <-]. split; [eauto|]. intros r [<-|[]]. lia.
      * intros [[r [[<-|[]] <-]] _]. reflexivity.
Qed.

Lemma head_insert_by_priority x l :
  FeatureSegment.priority <$> head (FeatureSegment.insert_by_priority x l)
  = Some match FeatureSegment.priority <$> head l with
         | Some m => Z.max (FeatureSegment.priority x) m
         | None => FeatureSegment.priority x
         end.
Proof.
  destruct l as [|y l]; simpl; [reflexivity|].
  destruct (Z.leb_spec (FeatureSegment.priority y) (FeatureSegment.priority x));
    simpl; f_equal; lia.
Qed.

(** The first row after [order_by("-priority")] carries the maximum. *)
Lemma head_order_by_priority_desc l :
  FeatureSegment.priority <$> head (FeatureSegment.order_by_priority_desc l)
  = max_priority l.
Proof.
  unfold FeatureSegment.order_by_priority_desc.
  induction l as [|x l IH]; [reflexivity|].
  cbn [fold_right max_priority].
  rewrite head_insert_by_priority, IH. reflexivity.
Qed.





End Priorities.

(** * Feature names *)

Section FeatureNames.
Implicit Types (objects : list Feature.t) (self r : Feature.t).

Example lower_FLAG : lower "FLAG" = "flag" ∧ iexact "Flag" "FLAG" = true.
Proof. split; reflexivity. Qed.

Example FLAG_taken_in_project_1 :
  Feature.validate_unique [feature_1] (new_FLAG 1)
  = Raise (ValidationError Feature.case_insensitive_message).
Proof. reflexivity. Qed.

Lemma iexact_same (n : string) : iexact n n = true.
Proof. apply String.eqb_refl. Qed.

Lemma iexact_taken_iff objects self :
  Feature.iexact_taken objects self = true ↔
  ∃ r, In r objects ∧ Feature.project r = Feature.project self
       ∧ iexact (Feature.name r) (Feature.name self) = true
       ∧ Feature.pk r ≠ Feature.pk self.
Proof.
  unfold Feature.iexact_taken. rewrite existsb_exists. split.
  - intros [r [Hin Hpk]]. apply filter_In in Hin as [Hin Hmatch].
    apply andb_true_iff in Hmatch as [Hproj Hname].
    apply Z.eqb_eq in Hproj. apply negb_true_iff, bool_decide_eq_false in Hpk.
    eauto 6.
  - intros [r (Hin & Hproj & Hname & Hpk)]. exists r. split.
    + apply filter_In. split; [exact Hin|].
      apply andb_true_iff. split; [apply Z.eqb_eq, Hproj | exact Hname].
    + apply negb_true_iff, bool_decide_eq_false, Hpk.
Qed.

Lemma unique_together_taken_inv objects self :
  Feature.unique_together_taken objects self = true →
  ∃ r, In r objects ∧ Feature.project r = Feature.project self
       ∧ iexact (Feature.name r) (Feature.name self) = true.
Proof.
  unfold Feature.unique_together_taken. rewrite existsb_exists.
  intros [r [Hin Hr]]. exists r.
  apply andb_true_iff in Hr as [Hr _]. apply andb_true_iff in Hr as [Hname Hproj].
  apply bool_decide_eq_true in Hname. apply Z.eqb_eq in Hproj.
  rewrite Hname. auto using iexact_same.
Qed.

(** C8. Validating a feature that is being created against the stored
    features: it raises a validation error when a stored feature of the same
    project has the same name up to case, and passes when every stored feature
    with such a name belongs to another project. *)
Theorem validate_unique_per_project objects self :
  Feature.pk self = None →
  (∀ r, In r objects → Feature.pk r ≠ None) →
  ((∃ r, In r objects ∧ Feature.project r = Feature.project self
         ∧ iexact (Feature.name r) (Feature.name self) = true) →
   ∃ msg, Feature.validate_unique objects self = Raise (ValidationError msg))
  ∧ ((∀ r, In r objects → iexact (Feature.name r) (Feature.name self) = true →
           Feature.project r ≠ Feature.project self) →
     Feature.validate_unique objects self = Return tt).
Proof.
  intros Hnew Hstored. unfold Feature.validate_unique. split.
  - intros [r (Hin & Hproj & Hname)].
    destruct (Feature.unique_together_taken objects self); [eauto|].
    rewrite (proj2 (iexact_taken_iff objects self)); [eauto|].
    exists r. rewrite Hnew. auto.
  - intros Hother.
    destruct (Feature.unique_together_taken objects self) eqn:Hexact.
    + apply unique_together_taken_inv in Hexact as [r (Hin & Hproj & Hname)].
      destruct (Hother r Hin Hname Hproj).
    + destruct (Feature.iexact_taken objects self) eqn:Hfold; [|reflexivity].
      apply iexact_taken_iff in Hfold as [r (Hin & Hproj & Hname & _)].
      destruct (Hother r Hin Hname Hproj).
Qed.

Lemma validate_unique_per_project_witness :
  Feature.name feature_1 = "Flag" ∧ Feature.project feature_1 = 1%Z
  ∧ (∃ msg, Feature.validate_unique [feature_1] (new_FLAG 1)
            = Raise (ValidationError msg))
  ∧ Feature.validate_unique [feature_1] (new_FLAG 2) = Return tt.
Proof.
  assert (∀ r, In r [feature_1] → Feature.pk r ≠ None) as Hstored.
  { intros r [<-|[]]. discriminate. }
  split; [reflexivity|]. split; [reflexivity|]. split.
  - apply (validate_unique_per_project [feature_1] (new_FLAG 1) eq_refl Hstored).
    exists feature_1. split; [left; reflexivity|]. split; reflexivity.
  - apply (validate_unique_per_project [feature_1] (new_FLAG 2) eq_refl Hstored).
    intros r [<-|[]] _. discriminate.
Defined.

End FeatureNames.

(** * Seeding the value of a new feature state *)

Section Defaults.
Context `{FeatureUtils}.
Implicit Types self : FeatureState.t.

Lemma key_name_cases (fsv_type : string) :
  FeatureState.get_feature_state_key_name fsv_type = "string_value"
  ∨ FeatureState.get_feature_state_key_name fsv_type = "boolean_value"
  ∨ FeatureState.get_feature_state_key_name fsv_type = "integer_value".
Proof.
  unfold FeatureState.get_feature_state_key_name.
  rewrite !lookup_insert, lookup_empty.
  repeat case_decide; simpl; auto.
Qed.

Lemma key_name_not_type (fsv_type : string) :
  FeatureState.get_feature_state_key_name fsv_type ≠ "type".
Proof. destruct (key_name_cases fsv_type) as [Hk | [Hk | Hk]]; rewrite Hk; discriminate. Qed.

Lemma falsy_not_False_cases (v : PyValue) :
  truthy v || is_False v = false ↔ v = PyNone ∨ v = PyInt 0 ∨ v = PyStr "".
Proof.
  destruct v as [|[|]|n|s]; simpl.
  - split; auto.
  - split; [discriminate|]. intros [|[|]]; discriminate.
  - split; [discriminate|]. intros [|[|]]; discriminate.
  - rewrite orb_false_r, negb_false_iff, Z.eqb_eq. split.
    + intros ->. auto.
    + intros [|[[= ->]|]]; [discriminate|reflexivity|discriminate].
  - rewrite orb_false_r, negb_false_iff, String.eqb_eq. split.
    + intros ->. auto.
    + intros [|[|[= ->]]]; [discriminate|discriminate|reflexivity].
Qed.

(** C6 (amended). [_get_feature_state_defaults] returns [None] exactly when the
    initial value is falsy without being [False]: [None], but also the integer
    0 and the empty string.  For [False] and for every truthy value it returns
    a seed that carries the inferred type tag and one value slot. *)
Theorem defaults_absent_iff_falsy_not_False self :
  let initial_value := Feature.initial_value (FeatureState.feature self) in
  (FeatureState._get_feature_state_defaults self = None
     ↔ initial_value = PyNone ∨ initial_value = PyInt 0 ∨ initial_value = PyStr "")
  ∧ (initial_value = PyBool false ∨ truthy initial_value = true →
     ∃ seed, FeatureState._get_feature_state_defaults self = Some seed
       ∧ seed !! "type" = Some (PyStr (get_value_type initial_value))
       ∧ is_Some (seed !! FeatureState.get_feature_state_key_name
                             (get_value_type initial_value))).
Proof.
  intros initial_value.
  assert (∀ v, ∃ seed : gmap string PyValue,
            (if String.eqb (get_value_type initial_value) BOOLEAN then
               Some (<[FeatureState.get_feature_state_key_name
                         (get_value_type initial_value) :=
                         get_boolean_from_string v]>
                       ({[ "type" := PyStr (get_value_type initial_value) ]}
                          : gmap string PyValue))
             else if String.eqb (get_value_type initial_value) INTEGER then
               Some (<[FeatureState.get_feature_state_key_name
                         (get_value_type initial_value) :=
                         get_integer_from_string v]>
                       {[ "type" := PyStr (get_value_type initial_value) ]})
             else
               Some (<[FeatureState.get_feature_state_key_name
                         (get_value_type initial_value) := v]>
                       {[ "type" := PyStr (get_value_type initial_value) ]}))
            = Some seed
            ∧ seed !! "type" = Some (PyStr (get_value_type initial_value))
            ∧ is_Some (seed !! FeatureState.get_feature_state_key_name
                                  (get_value_type initial_value))) as Hseed.
  { intros v.
    pose proof (key_name_not_type (get_value_type initial_value)) as Hkey.
    destruct (String.eqb _ BOOLEAN); [|destruct (String.eqb _ INTEGER)];
      eexists; (split; [reflexivity|]);
      (split; [rewrite lookup_insert_ne by exact Hkey; apply lookup_singleton_eq
              |rewrite lookup_insert_eq; eauto]). }
  unfold FeatureState._get_feature_state_defaults. fold initial_value. split.
  - rewrite <- falsy_not_False_cases.
    destruct (truthy initial_value || is_False initial_value); simpl.
    + destruct (Hseed initial_value) as [seed [-> _]]. split; discriminate.
    + split; reflexivity.
  - intros Hpresent.
    assert (truthy initial_value || is_False initial_value = true) as ->.
    { destruct Hpresent as [Hv | Hv]; rewrite Hv; [reflexivity|apply orb_true_l]. }
    apply Hseed.
Qed.

End Defaults.

Example defaults_of_42 :
  ∃ seed,
    @FeatureState._get_feature_state_defaults spec_utils
      (new_state_with_initial_value (PyStr "42")) = Some seed
    ∧ seed !! "type" = Some (PyStr "int")
    ∧ seed !! "integer_value" = Some (PyInt 42)
    ∧ seed !! "string_value" = None.
Proof. eexists. split; [reflexivity|]. split_and!; reflexivity. Qed.

Lemma defaults_absent_iff_falsy_not_False_witness :
  Feature.initial_value
    (FeatureState.feature (new_state_with_initial_value (PyBool false)))
  = PyBool false
  ∧ ∃ seed,
      @FeatureState._get_feature_state_defaults spec_utils
        (new_state_with_initial_value (PyBool false)) = Some seed
      ∧ seed !! "type" = Some (PyStr "bool")
      ∧ is_Some (seed !! "boolean_value").
Proof.
  split; [reflexivity|].
  exact (proj2 (@defaults_absent_iff_falsy_not_False spec_utils
                  (new_state_with_initial_value (PyBool false)))
               (or_introl eq_refl)).
Defined.

(** C6, as stated, fails: the empty string and the integer 0 are neither null
    nor unset, yet they are treated as absent. *)
Lemma defaults_absent_beyond_null :
  ¬ (∀ self,
       @FeatureState._get_feature_state_defaults spec_utils self = None →
       Feature.initial_value (FeatureState.feature self) = PyNone)
  ∧ @FeatureState._get_feature_state_defaults spec_utils
      (new_state_with_initial_value (PyStr "")) = None
  ∧ @FeatureState._get_feature_state_defaults spec_utils
      (new_state_with_initial_value (PyInt 0)) = None.
Proof.
  split_and!; [|reflexivity|reflexivity].
  intros Hclaim.
  discriminate (Hclaim (new_state_with_initial_value (PyStr "")) eq_refl).
Qed.

(** * Saving a feature state *)

Section Saving.
Context `{FeatureUtils}.
Implicit Types (db : FeatureState.Database) (self r : FeatureState.t).

Lemma exists_for_environment_and_feature_iff (rows : list FeatureState.t) self :
  FeatureState.exists_for_environment_and_feature rows self = true ↔
  ∃ r, In r rows ∧ same_environment_and_feature r self.
Proof.
  unfold FeatureState.exists_for_environment_and_feature,
    same_environment_and_feature.
  rewrite existsb_exists. split; intros [r [Hin Hr]]; exists r; (split; [done|]).
  - apply andb_true_iff in Hr as [He Hf].
    split; eapply bool_decide_eq_true; eassumption.
  - destruct Hr as [He Hf]. apply andb_true_iff.
    split; apply bool_decide_eq_true; assumption.
Qed.

Lemma conflict_needs_same_scope r self :
  (Feature.pk (FeatureState.feature r) = Feature.pk (FeatureState.feature self) →
   FeatureState.environment r ≠ FeatureState.environment self) →
  FeatureState.conflict r self = None.
Proof.
  intros Hother. unfold FeatureState.conflict.
  assert (FeatureState.sql_eq (FeatureState.environment r)
            (FeatureState.environment self)
          && FeatureState.sql_eq (Feature.pk (FeatureState.feature r))
               (Feature.pk (FeatureState.feature self)) = false) as ->.
  { destruct (FeatureState.environment r) as [e|],
             (FeatureState.environment self) as [e'|];
      simpl; try reflexivity.
    destruct (Feature.pk (FeatureState.feature r)) as [f|],
             (Feature.pk (FeatureState.feature self)) as [f'|];
      simpl; try apply andb_false_r.
    destruct (Z.eqb_spec e e') as [->|]; [|reflexivity].
    destruct (Z.eqb_spec f f') as [->|]; [|reflexivity].
    destruct (Hother eq_refl eq_refl). }
  rewrite !andb_false_r. reflexivity.
Qed.

Lemma violated_none (rows : list FeatureState.t) self :
  (∀ r, In r rows → FeatureState.conflict r self = None) →
  FeatureState.violated rows self = None.
Proof.
  induction rows as [|r rows IH]; simpl; intros Hall; [reflexivity|].
  rewrite (Hall r (or_introl eq_refl)). apply IH. intros r' Hr'.
  apply Hall. right. exact Hr'.
Qed.

(** C10. Creating an environment default is refused as soon as the table holds
    any row for the same environment and feature, be it a default, a segment
    override or an identity override. *)
Theorem save_default_refused_by_any_row db self :
  FeatureState.pk self = None →
  FeatureState.identity self = None →
  FeatureState.feature_segment self = None →
  (∃ r, In r (FeatureState.feature_states db)
        ∧ same_environment_and_feature r self) →
  FeatureState.save db self = Raise (ValidationError FeatureState.duplicate_message).
Proof.
  intros Hpk Hid Hseg Hrow. unfold FeatureState.save, FeatureState.pk_falsy.
  rewrite Hpk, Hid, Hseg.
  apply exists_for_environment_and_feature_iff in Hrow. rewrite Hrow.
  reflexivity.
Qed.

(** C5. Creating an environment default fails with the duplicate error when a
    default already exists for its environment and feature; it succeeds, and
    appends the new row under a fresh primary key, when the rows of the
    feature all belong to other environments. *)
Theorem save_default_once_per_environment db self :
  FeatureState.pk self = None →
  is_default self →
  ((∃ r, In r (FeatureState.feature_states db) ∧ is_default r
         ∧ same_environment_and_feature r self) →
   FeatureState.save db self
   = Raise (ValidationError FeatureState.duplicate_message))
  ∧ ((∀ r, In r (FeatureState.feature_states db) →
           Feature.pk (FeatureState.feature r)
           = Feature.pk (FeatureState.feature self) →
           FeatureState.environment r ≠ FeatureState.environment self) →
     ∃ db' saved,
       FeatureState.save db self = Return (db', saved)
       ∧ saved = FeatureState.with_pk
                   (FeatureState.next_pk (FeatureState.feature_states db)) self
       ∧ FeatureState.feature_states db'
         = (FeatureState.feature_states db ++ [saved])%list).
Proof.
  intros Hpk [Hid Hseg]. unfold FeatureState.save, FeatureState.pk_falsy.
  rewrite Hpk, Hid, Hseg. simpl. split.
  - intros [r (Hin & _ & Hsame)].
    rewrite (proj2 (exists_for_environment_and_feature_iff _ self)) by eauto.
    reflexivity.
  - intros Hother.
    destruct (FeatureState.exists_for_environment_and_feature _ self) eqn:Hex.
    + apply exists_for_environment_and_feature_iff in Hex as [r [Hin [He Hf]]].
      destruct (Hother r Hin Hf He).
    + simpl. unfold FeatureState.Model_save. rewrite Hpk.
      rewrite violated_none; [simpl; eauto|].
      intros r Hin. apply conflict_needs_same_scope. auto.
Qed.

(** C7 (amended). Every successful [save], the creation of a row as much as
    the update of a stored one, makes exactly one call to the webhook
    dispatcher, for the saved state. *)
Theorem save_notifies_on_every_success db self db' saved :
  FeatureState.save db self = Return (db', saved) →
  FeatureState.webhooks db' = (FeatureState.webhooks db ++ [saved])%list
  ∧ ∃ k, saved = FeatureState.with_pk k self.
Proof.
  unfold FeatureState.save.
  destruct (_ && _ && _); [discriminate|].
  destruct (FeatureState.Model_save _ self) as [[rows k]|e]; simpl;
    [|discriminate].
  intros [= <- <-]. simpl. eauto.
Qed.

End Saving.

Lemma save_default_refused_by_any_row_witness :
  ¬ is_default identity_state
  ∧ ¬ is_default state_S1
  ∧ @FeatureState.save spec_utils (db_of [identity_state]) (new_default 1)
    = Raise (ValidationError FeatureState.duplicate_message)
  ∧ @FeatureState.save spec_utils (db_of [state_S1]) (new_default 1)
    = Raise (ValidationError FeatureState.duplicate_message).
Proof.
  split; [intros [Hid _]; discriminate Hid|].
  split; [intros [_ Hseg]; discriminate Hseg|].
  split.
  - apply (@save_default_refused_by_any_row spec_utils (db_of [identity_state])
             (new_default 1) eq_refl eq_refl eq_refl).
    exists identity_state. split; [left; reflexivity|split; reflexivity].
  - apply (@save_default_refused_by_any_row spec_utils (db_of [state_S1])
             (new_default 1) eq_refl eq_refl eq_refl).
    exists state_S1. split; [left; reflexivity|split; reflexivity].
Defined.

Lemma save_default_once_per_environment_witness :
  @FeatureState.save spec_utils (db_of [default_state]) (new_default 1)
  = Raise (ValidationError FeatureState.duplicate_message)
  ∧ ∃ db' saved,
      @FeatureState.save spec_utils (db_of [default_state]) (new_default 2)
      = Return (db', saved)
      ∧ saved = FeatureState.with_pk 2 (new_default 2)
      ∧ FeatureState.feature_states db' = [default_state; saved].
Proof.
  split.
  - apply (@save_default_once_per_environment spec_utils (db_of [default_state])
             (new_default 1) eq_refl (conj eq_refl eq_refl)).
    exists default_state.
    split; [left; reflexivity|]. split; split; reflexivity.
  - apply (@save_default_once_per_environment spec_utils (db_of [default_state])
             (new_default 2) eq_refl (conj eq_refl eq_refl)).
    intros r [<-|[]] _. discriminate.
Defined.

Lemma save_notifies_on_every_success_witness :
  ∃ db' saved,
    @FeatureState.save spec_utils empty_db (new_default 1) = Return (db', saved)
    ∧ FeatureState.webhooks db'
      = (FeatureState.webhooks empty_db ++ [saved])%list
    ∧ ∃ k, saved = FeatureState.with_pk k (new_default 1).
Proof.
  eexists _, _. split; [reflexivity|].
  exact (@save_notifies_on_every_success spec_utils empty_db (new_default 1)
           _ _ eq_refl).
Defined.

(** C7, as stated, fails: writing back the edited copy of a stored row is an
    update, the table keeps one row, and the dispatcher is called all the
    same. *)
Lemma save_update_notifies :
  FeatureState.pk default_state_edited = FeatureState.pk default_state
  ∧ In default_state (FeatureState.feature_states (db_of [default_state]))
  ∧ ∃ db',
      @FeatureState.save spec_utils (db_of [default_state]) default_state_edited
      = Return (db', default_state_edited)
      ∧ FeatureState.feature_states db' = [default_state_edited]
      ∧ FeatureState.webhooks (db_of [default_state]) = []
      ∧ FeatureState.webhooks db' = [default_state_edited].
Proof.
  split; [reflexivity|]. split; [left; reflexivity|].
  eexists. split; [reflexivity|]. split_and!; reflexivity.
Qed.

(** * The analytics payload *)

Section Analytics.
Context `{FeatureUtils}.
Implicit Types (values : gmap Z FeatureStateValue.t) (fs : FeatureState.t).

Lemma set_property_other values (props : gmap string PyValue) fs (n : string) :
  feature_name fs ≠ n →
  HeapWrapper.set_property values props fs !! n = props !! n.
Proof. intros Hne. unfold HeapWrapper.set_property. by rewrite lookup_insert_ne. Qed.

(** Later states with other names leave a property as it is. *)
Lemma foldl_set_property_other values (l : list FeatureState.t)
    (props : gmap string PyValue) (n : string) :
  (∀ fs, In fs l → feature_name fs ≠ n) →
  foldl (HeapWrapper.set_property values) props l !! n = props !! n.
Proof.
  revert props. induction l as [|fs l IH]; intros props Hall; [reflexivity|].
  simpl. rewrite IH by (intros fs' Hfs'; apply Hall; right; exact Hfs').
  apply set_property_other, Hall. left. reflexivity.
Qed.

(** C9. In the payload built from any list of feature states, a feature name
    is mapped by the last state of that name: to its value when that state is
    enabled and the value is truthy, and to its [enabled] flag otherwise. *)
Theorem heap_property_value_or_enabled values (self : HeapWrapper.t)
    (user_id : PyValue) (before after : list FeatureState.t) fs :
  (∀ fs', In fs' after → feature_name fs' ≠ feature_name fs) →
  let value := FeatureState.get_feature_state_value values fs in
  let property :=
    HeapWrapper.properties
      (HeapWrapper.generate_user_data values self user_id (before ++ fs :: after))
    !! feature_name fs in
  (FeatureState.enabled fs = true ∧ truthy value = true →
   property = Some value)
  ∧ (FeatureState.enabled fs = false ∨ truthy value = false →
     property = Some (PyBool (FeatureState.enabled fs))).
Proof.
  intros Hlast value property.
  assert (property
          = Some (if FeatureState.enabled fs && truthy value then value
                  else PyBool (FeatureState.enabled fs))) as ->.
  { unfold property, HeapWrapper.generate_user_data. simpl.
    rewrite foldl_app. simpl.
    rewrite foldl_set_property_other by exact Hlast.
    unfold HeapWrapper.set_property. apply lookup_insert_eq. }
  split.
  - intros [-> ->]. reflexivity.
  - intros [-> | ->]; [reflexivity|]. rewrite andb_false_r. reflexivity.
Qed.

End Analytics.

Lemma heap_property_value_or_enabled_witness :
  @FeatureState.get_feature_state_value spec_utils values_S1 state_S1 = PyStr "blue"
  ∧ HeapWrapper.properties
      (@HeapWrapper.generate_user_data spec_utils values_S1 heap (PyInt 7)
         [default_state; state_S1]) !! "Flag" = Some (PyStr "blue")
  ∧ HeapWrapper.properties
      (@HeapWrapper.generate_user_data spec_utils values_S1 heap (PyInt 7)
         [default_state]) !! "Flag" = Some (PyBool false).
Proof.
  split; [reflexivity|]. split.
  - apply (@heap_property_value_or_enabled spec_utils values_S1 heap (PyInt 7)
             [default_state] [] state_S1 (λ _ (F : False), match F with end)).
    split; reflexivity.
  - apply (@heap_property_value_or_enabled spec_utils values_S1 heap (PyInt 7)
             [] [] default_state (λ _ (F : False), match F with end)).
    left. reflexivity.
Defined.

(** * Order properties of the precedence comparison *)

Section PrecedenceOrder.
Implicit Types a b c : FeatureState.t.

Lemma Feature_eq_trans (f g h : Feature.t) :
  Feature.__eq__ f g = true → Feature.__eq__ g h = true →
  Feature.__eq__ f h = true.
Proof.
  unfold Feature.__eq__. intros Hfg Hgh.
  destruct (Feature.pk f) as [k|] eqn:Hf.
  - apply bool_decide_eq_true in Hfg. rewrite Hfg in Hgh. exact Hgh.
  - apply bool_decide_eq_true in Hfg. subst g. rewrite Hf in Hgh. exact Hgh.
Qed.

(** The converse of [gt_true_inv]. *)
Lemma gt_true_intro a b :
  same_scope a b →
  match FeatureState.identity a with
  | Some i => FeatureState.identity b = None ∨ FeatureState.identity b = Some i
  | None =>
      FeatureState.identity b = None
      ∧ match FeatureState.feature_segment a, FeatureState.feature_segment b with
        | Some sa, Some sb =>
            (FeatureSegment.priority sa ≤ FeatureSegment.priority sb)%Z
        | Some _, None => True
        | None, Some _ => False
        | None, None => True
        end
  end →
  FeatureState.__gt__ a b = Return true.
Proof.
  intros [Henv Hfeat] Hcase. unfold FeatureState.__gt__.
  rewrite Henv, Hfeat, bool_decide_eq_true_2 by reflexivity. simpl.
  destruct (FeatureState.identity a) as [i|]; simpl.
  - destruct Hcase as [-> | ->]; simpl; [reflexivity|].
    rewrite bool_decide_eq_true_2 by reflexivity. reflexivity.
  - destruct Hcase as [-> Hcase]. simpl.
    destruct (FeatureState.feature_segment a) as [sa|],
             (FeatureState.feature_segment b) as [sb|]; simpl; try done.
    rewrite Z.gtb_ltb, (proj2 (Z.ltb_ge _ _)) by lia. reflexivity.
Qed.

(** X1. Whether two states can be compared does not depend on the side each
    one stands on: [a > b] raises exactly when [b > a] raises. *)
Theorem gt_raises_symmetric a b :
  raised (FeatureState.__gt__ a b) = raised (FeatureState.__gt__ b a).
Proof.
  unfold FeatureState.__gt__.
  rewrite (Feature_eq_sym (FeatureState.feature b)).
  destruct (decide (FeatureState.environment a = FeatureState.environment b))
    as [Henv|Henv].
  - rewrite <- Henv, !bool_decide_eq_true_2 by reflexivity. simpl.
    destruct (Feature.__eq__ _ _); simpl; [|reflexivity].
    destruct (FeatureState.identity a) as [i|], (FeatureState.identity b) as [j|];
      simpl.
    + destruct (decide (i = j)) as [->|Hij].
      * rewrite !bool_decide_eq_true_2 by reflexivity. reflexivity.
      * rewrite !bool_decide_eq_false_2 by congruence. reflexivity.
    + destruct (FeatureState.feature_segment b); reflexivity.
    + destruct (FeatureState.feature_segment a); reflexivity.
    + destruct (FeatureState.feature_segment a), (FeatureState.feature_segment b);
        reflexivity.
  - rewrite (bool_decide_eq_false_2 (FeatureState.environment a
                                     = FeatureState.environment b)),
      (bool_decide_eq_false_2 (FeatureState.environment b
                               = FeatureState.environment a)) by congruence.
    reflexivity.
Qed.

(** X2. Two states that can be compared are always ranked: at least one of
    them outranks the other. *)
Theorem gt_total a b :
  raised (FeatureState.__gt__ a b) = false →
  FeatureState.__gt__ a b = Return true ∨ FeatureState.__gt__ b a = Return true.
Proof.
  unfold FeatureState.__gt__.
  rewrite (Feature_eq_sym (FeatureState.feature b)).
  destruct (decide (FeatureState.environment a = FeatureState.environment b))
    as [Henv|Henv].
  - rewrite <- Henv, !bool_decide_eq_true_2 by reflexivity. simpl.
    destruct (Feature.__eq__ _ _); simpl; [|discriminate].
    destruct (FeatureState.identity a) as [i|], (FeatureState.identity b) as [j|];
      simpl.
    + destruct (bool_decide (Some i = Some j)); simpl; [auto|discriminate].
    + auto.
    + auto.
    + destruct (FeatureState.feature_segment a) as [sa|],
               (FeatureState.feature_segment b) as [sb|]; simpl; auto.
      rewrite !Z.gtb_ltb. intros _.
      destruct (Z.ltb_spec (FeatureSegment.priority sb) (FeatureSegment.priority sa));
        [right|left; reflexivity].
      rewrite (proj2 (Z.ltb_ge _ _)) by lia. reflexivity.
  - rewrite (bool_decide_eq_false_2 (FeatureState.environment a
                                     = FeatureState.environment b))
      by congruence.
    discriminate.
Qed.

Lemma gt_total_witness :
  raised (FeatureState.__gt__ state_S2 state_S1) = false
  ∧ (FeatureState.__gt__ state_S2 state_S1 = Return true
     ∨ FeatureState.__gt__ state_S1 state_S2 = Return true).
Proof.
  split; [reflexivity|]. exact (gt_total state_S2 state_S1 eq_refl).
Defined.

(** X3. Outranking is transitive, and the third comparison does not raise. *)
Theorem gt_transitive a b c :
  FeatureState.__gt__ a b = Return true →
  FeatureState.__gt__ b c = Return true →
  FeatureState.__gt__ a c = Return true.
Proof.
  intros Hab Hbc.
  apply gt_true_inv in Hab as [[Henv Hfeat] Hab].
  apply gt_true_inv in Hbc as [[Henv' Hfeat'] Hbc].
  apply gt_true_intro.
  - split; [congruence|]. eapply Feature_eq_trans; eassumption.
  - destruct (FeatureState.identity a) as [i|].
    + destruct Hab as [Hb|Hb]; rewrite Hb in Hbc; [left; apply Hbc|exact Hbc].
    + destruct Hab as [Hb Hab]. rewrite Hb in Hbc. destruct Hbc as [Hc Hbc].
      split; [exact Hc|].
      destruct (FeatureState.feature_segment a) as [sa|],
               (FeatureState.feature_segment b) as [sb|],
               (FeatureState.feature_segment c) as [sc|]; try done. lia.
Qed.

Lemma gt_transitive_witness :
  FeatureState.__gt__ identity_state state_S1 = Return true
  ∧ FeatureState.__gt__ state_S1 default_state = Return true
  ∧ FeatureState.__gt__ identity_state default_state = Return true.
Proof.
  split; [reflexivity|]. split; [reflexivity|].
  exact (gt_transitive identity_state state_S1 default_state eq_refl eq_refl).
Defined.

(** X4. The three levels are strict whatever the priorities are: in one scope
    an identity override outranks every state without identity and is not
    outranked by it, and a segment override outranks the environment default
    and is not outranked by it. *)
Theorem gt_levels a b :
  same_scope a b →
  FeatureState.identity b = None →
  (is_set (FeatureState.identity a) = true
   ∨ (is_set (FeatureState.feature_segment a) = true
      ∧ FeatureState.feature_segment b = None)) →
  FeatureState.__gt__ a b = Return true
  ∧ FeatureState.__gt__ b a = Return false.
Proof.
  intros [Henv Hfeat] Hb Hlevel. unfold FeatureState.__gt__.
  rewrite <- Henv, (Feature_eq_sym (FeatureState.feature b)), Hfeat, Hb.
  rewrite bool_decide_eq_true_2 by reflexivity. simpl.
  destruct Hlevel as [Hid|[Hseg Hnone]].
  - destruct (FeatureState.identity a); [|discriminate]. simpl.
    split; [reflexivity|].
    destruct (FeatureState.feature_segment b), (FeatureState.feature_segment a);
      reflexivity.
  - rewrite Hnone.
    destruct (FeatureState.feature_segment a) as [sa|]; [|discriminate].
    destruct (FeatureState.identity a); split; reflexivity.
Qed.

Lemma gt_levels_witness :
  (FeatureState.__gt__ identity_state state_S1 = Return true
   ∧ FeatureState.__gt__ state_S1 identity_state = Return false)
  ∧ (FeatureState.__gt__ state_S2 default_state = Return true
     ∧ FeatureState.__gt__ default_state state_S2 = Return false).
Proof.
  split.
  - apply (gt_levels identity_state state_S1 (conj eq_refl eq_refl) eq_refl).
    left. reflexivity.
  - apply (gt_levels state_S2 default_state (conj eq_refl eq_refl) eq_refl).
    right. split; reflexivity.
Defined.

End PrecedenceOrder.

(** * More on segment priorities *)

Section SegmentOrder.
Implicit Types (x y z : FeatureSegment.t) (objects : list FeatureSegment.t).

Lemma get_next_segment_priority_eq objects (feature : Feature.t) :
  get_next_segment_priority objects feature
  = Return match max_priority (of_feature objects feature) with
           | Some m => (m + 1)%Z
           | None => 1%Z
           end.
Proof.
  unfold get_next_segment_priority. fold (of_feature objects feature).
  rewrite <- head_order_by_priority_desc.
  destruct (FeatureSegment.order_by_priority_desc (of_feature objects feature));
    reflexivity.
Qed.

(** X5. The priority handed out for a feature puts a new override at the
    bottom: it is larger than the priority of every override the feature has,
    so the new override is [<] each of them and none of them is [<] it; and it
    is at least 1 when no stored priority is negative. *)
Theorem next_priority_is_lowest objects (feature : Feature.t) :
  ∃ p, get_next_segment_priority objects feature = Return p
    ∧ (∀ r new, In r (of_feature objects feature) →
         FeatureSegment.priority new = p →
         FeatureSegment.__lt__ new (Some r) = PyBool true
         ∧ FeatureSegment.__lt__ r (Some new) = PyBool false)
    ∧ ((∀ r, In r (of_feature objects feature) →
             (0 ≤ FeatureSegment.priority r)%Z) → (1 ≤ p)%Z).
Proof.
  rewrite get_next_segment_priority_eq.
  destruct (max_priority (of_feature objects feature)) as [m|] eqn:Hmax.
  - apply max_priority_greatest in Hmax as [[top [Htop Hm]] Hle].
    exists (m + 1)%Z. split; [reflexivity|]. split.
    + intros r new Hr Hnew. specialize (Hle r Hr). simpl. rewrite Hnew.
      rewrite !Z.gtb_ltb, (proj2 (Z.ltb_lt _ _)), (proj2 (Z.ltb_ge _ _)) by lia.
      split; reflexivity.
    + intros Hpos. specialize (Hpos top Htop). lia.
  - exists 1%Z. split; [reflexivity|]. split; [|lia].
    destruct (of_feature objects feature); [intros r new []|discriminate].
Qed.

(** X6. [__lt__] is a strict order on overrides: no override is below itself
    or below [None], two overrides are never below each other, and being below
    is transitive. *)
Theorem segment_lt_strict_order x y z :
  truthy (FeatureSegment.__lt__ x (Some x)) = false
  ∧ truthy (FeatureSegment.__lt__ x None) = false
  ∧ (truthy (FeatureSegment.__lt__ x (Some y)) = true →
     truthy (FeatureSegment.__lt__ y (Some x)) = false)
  ∧ (truthy (FeatureSegment.__lt__ x (Some y)) = true →
     truthy (FeatureSegment.__lt__ y (Some z)) = true →
     truthy (FeatureSegment.__lt__ x (Some z)) = true).
Proof.
  simpl. rewrite !Z.gtb_ltb. split_and!.
  - apply Z.ltb_irrefl.
  - reflexivity.
  - intros Hxy%Z.ltb_lt. apply Z.ltb_ge. lia.
  - intros Hxy%Z.ltb_lt Hyz%Z.ltb_lt. apply Z.ltb_lt. lia.
Qed.

Lemma segment_lt_strict_order_witness :
  truthy (FeatureSegment.__lt__ segment_S2 (Some segment_S1)) = true
  ∧ truthy (FeatureSegment.__lt__ segment_S1 (Some segment_S2)) = false.
Proof.
  split; [reflexivity|].
  exact (proj1 (proj2 (proj2
           (segment_lt_strict_order segment_S2 segment_S1 segment_S1))) eq_refl).
Defined.

End SegmentOrder.

(** * More on feature names *)

Section FeatureNamesOnUpdate.
Implicit Types (objects : list Feature.t) (self r : Feature.t).

(** X7. Validation, for a feature being created or edited, against stored
    features: it raises exactly when another stored feature of the same
    project has the same name up to case, the feature's own row never counting
    against it.  The error is the case-insensitive one unless another feature
    of the project has exactly the same name. *)
Theorem validate_unique_raises_iff objects self :
  (∀ r, In r objects → Feature.pk r ≠ None) →
  (raised (Feature.validate_unique objects self) = true ↔
   ∃ r, In r objects ∧ Feature.pk r ≠ Feature.pk self
        ∧ Feature.project r = Feature.project self
        ∧ iexact (Feature.name r) (Feature.name self) = true)
  ∧ ((∀ r, In r objects → Feature.pk r ≠ Feature.pk self →
           Feature.project r = Feature.project self →
           Feature.name r ≠ Feature.name self) →
     raised (Feature.validate_unique objects self) = true →
     Feature.validate_unique objects self
     = Raise (ValidationError Feature.case_insensitive_message)).
Proof.
  intros Hstored.
  assert (Feature.unique_together_taken objects self = true ↔
          ∃ r, In r objects ∧ Feature.pk r ≠ Feature.pk self
               ∧ Feature.project r = Feature.project self
               ∧ Feature.name r = Feature.name self) as Hexact.
  { unfold Feature.unique_together_taken. rewrite existsb_exists.
    split; intros [r Hr]; exists r.
    - destruct Hr as [Hin Hr]. split; [exact Hin|].
      apply andb_true_iff in Hr as [Hr Hpk].
      apply andb_true_iff in Hr as [Hname Hproj].
      apply bool_decide_eq_true in Hname. apply Z.eqb_eq in Hproj.
      split; [|done]. apply negb_true_iff in Hpk.
      destruct (Feature.pk self) as [k|] eqn:Hself; [|exact (Hstored r Hin)].
      simpl in Hpk. apply bool_decide_eq_false in Hpk. exact Hpk.
    - destruct Hr as (Hin & Hpk & Hproj & Hname). split; [exact Hin|].
      rewrite bool_decide_eq_true_2, (proj2 (Z.eqb_eq _ _)) by done. simpl.
      rewrite bool_decide_eq_false_2 by done. rewrite andb_false_r. reflexivity. }
  unfold Feature.validate_unique. split.
  - split.
    + destruct (Feature.unique_together_taken objects self) eqn:Htaken.
      * intros _. destruct (proj1 Hexact eq_refl) as [r (Hin & Hpk & Hproj & Hname)].
        exists r. rewrite Hname. auto using iexact_same.
      * destruct (Feature.iexact_taken objects self) eqn:Hfold; [|discriminate].
        intros _. apply iexact_taken_iff in Hfold as [r Hr]. exists r. tauto.
    + intros [r (Hin & Hpk & Hproj & Hname)].
      destruct (Feature.unique_together_taken objects self); [reflexivity|].
      rewrite (proj2 (iexact_taken_iff objects self)); [reflexivity|eauto 6].
  - intros Hnames.
    destruct (Feature.unique_together_taken objects self) eqn:Htaken.
    + destruct (proj1 Hexact eq_refl) as [r (Hin & Hpk & Hproj & Hname)].
      destruct (Hnames r Hin Hpk Hproj Hname).
    + destruct (Feature.iexact_taken objects self); [reflexivity|discriminate].
Qed.

End FeatureNamesOnUpdate.

Lemma validate_unique_raises_iff_witness :
  raised (Feature.validate_unique [feature_1] (new_FLAG 1)) = true
  ∧ raised (Feature.validate_unique [feature_1] feature_1_renamed) = false.
Proof.
  assert (∀ r, In r [feature_1] → Feature.pk r ≠ None) as Hstored.
  { intros r [<-|[]]. discriminate. }
  split; [|reflexivity].
  apply (proj1 (validate_unique_raises_iff [feature_1] (new_FLAG 1) Hstored)).
  exists feature_1. split; [left; reflexivity|].
  split; [discriminate|]. split; reflexivity.
Defined.

(** * More on the analytics payload *)

Section AnalyticsPayload.
Context `{FeatureUtils}.
Implicit Types (values : gmap Z FeatureStateValue.t) (fs : FeatureState.t)
  (props : gmap string PyValue).

Lemma foldl_set_property_invariant (P : gmap string PyValue → Prop) values
    (l : list FeatureState.t) props :
  (∀ props fs, P props → In fs l → P (HeapWrapper.set_property values props fs)) →
  P props → P (foldl (HeapWrapper.set_property values) props l).
Proof.
  revert props. induction l as [|fs l IH]; intros props Hstep Hprops;
    [exact Hprops|].
  simpl. apply IH.
  - intros props' fs' Hp Hin. apply Hstep; [exact Hp|right; exact Hin].
  - apply Hstep; [exact Hprops|left; reflexivity].
Qed.

(** X8. The payload has one property per feature name that occurs in the
    list and no other property; the other fields are the key of the wrapper,
    the user id as given and the fixed event name. *)
Theorem heap_payload_names values (self : HeapWrapper.t) (user_id : PyValue)
    (feature_states : list FeatureState.t) :
  let data := HeapWrapper.generate_user_data values self user_id feature_states in
  (∀ n : string,
     is_Some (HeapWrapper.properties data !! n)
     ↔ ∃ fs, In fs feature_states ∧ feature_name fs = n)
  ∧ HeapWrapper.app_id data = HeapWrapper.api_key self
  ∧ HeapWrapper.identity data = user_id
  ∧ HeapWrapper.event data = "Flagsmith Feature Flags".
Proof.
  simpl. split; [|done].
  assert (∀ (l : list FeatureState.t) props (n : string),
            is_Some (foldl (HeapWrapper.set_property values) props l !! n)
            ↔ is_Some (props !! n) ∨ ∃ fs, In fs l ∧ feature_name fs = n) as Hfold.
  { induction l as [|fs l IH]; intros props n; simpl.
    - split; [auto|]. intros [Hn|[fs [[] _]]]. exact Hn.
    - rewrite IH. unfold HeapWrapper.set_property at 1. fold (feature_name fs).
      destruct (decide (feature_name fs = n)) as [Heq|Hne].
      + rewrite Heq, lookup_insert_eq. split; [|eauto]. intros _.
        right. exists fs. auto.
      + rewrite lookup_insert_ne by exact Hne. split.
        * intros [Hn|[fs' [Hin Hfs']]]; eauto.
        * intros [Hn|[fs' [[<-|Hin] Hfs']]]; [auto|done|eauto]. }
  intros n. rewrite Hfold, lookup_empty. split.
  - intros [[? [=]]|Hfs]. exact Hfs.
  - auto.
Qed.

(** X9. No property of the payload is [None], 0 or an empty string: each one
    is either truthy or the boolean [False]. *)
Theorem heap_property_never_falsy_value values (self : HeapWrapper.t)
    (user_id : PyValue) (feature_states : list FeatureState.t)
    (n : string) (v : PyValue) :
  HeapWrapper.properties
    (HeapWrapper.generate_user_data values self user_id feature_states) !! n
  = Some v →
  v = PyBool false ∨ truthy v = true.
Proof.
  simpl. revert n v.
  apply (foldl_set_property_invariant
           (λ props, ∀ (n : string) v, props !! n = Some v →
                       v = PyBool false ∨ truthy v = true)).
  - intros props fs Hprops _ n v. unfold HeapWrapper.set_property.
    destruct (decide (feature_name fs = n)) as [Heq|Hne].
    + unfold feature_name in Heq. rewrite Heq, lookup_insert_eq. intros [= <-].
      destruct (FeatureState.enabled fs); simpl; [|auto].
      destruct (truthy (FeatureState.get_feature_state_value values fs)) eqn:Hv;
        auto.
    + unfold feature_name in Hne. rewrite lookup_insert_ne by exact Hne.
      apply Hprops.
  - intros n v. rewrite lookup_empty. discriminate.
Qed.

End AnalyticsPayload.

Lemma heap_property_never_falsy_value_witness :
  HeapWrapper.properties
    (@HeapWrapper.generate_user_data spec_utils values_S1 heap (PyInt 7)
       [state_S1]) !! "Flag" = Some (PyStr "blue")
  ∧ (PyStr "blue" = PyBool false ∨ truthy (PyStr "blue") = true).
Proof.
  split; [reflexivity|].
  exact (@heap_property_never_falsy_value spec_utils values_S1 heap (PyInt 7)
           [state_S1] "Flag" (PyStr "blue") eq_refl).
Defined.

(** * Typed values of a feature state *)

Section TypedValues.
Context `{FeatureUtils}.
Implicit Types (values : gmap Z FeatureStateValue.t) (self : FeatureState.t)
  (row : FeatureStateValue.t).

Lemma key_name_of_tags :
  distinct_tags →
  FeatureState.get_feature_state_key_name INTEGER = "integer_value"
  ∧ FeatureState.get_feature_state_key_name BOOLEAN = "boolean_value"
  ∧ FeatureState.get_feature_state_key_name STRING = "string_value".
Proof.
  intros (His & Hib & Hsb). unfold FeatureState.get_feature_state_key_name.
  split_and!.
  - rewrite lookup_insert_ne, lookup_insert_ne, lookup_insert_eq by done.
    reflexivity.
  - rewrite lookup_insert_ne, lookup_insert_eq by done. reflexivity.
  - rewrite lookup_insert_eq. reflexivity.
Qed.

Lemma key_name_of_other (tag : string) :
  tag ≠ INTEGER → tag ≠ BOOLEAN → tag ≠ STRING →
  FeatureState.get_feature_state_key_name tag = "string_value".
Proof.
  intros Hi Hb Hs. unfold FeatureState.get_feature_state_key_name.
  rewrite !lookup_insert_ne, lookup_empty by done. reflexivity.
Qed.

(** X10. Reading the value of a state, the three tags being different
    strings: a state without value row, or whose row carries no tag or an
    unknown one, reads as [None]; otherwise the slot named by the tag is
    read, whatever the other two slots hold. *)
Theorem get_feature_state_value_by_tag values self :
  distinct_tags →
  match k ← FeatureState.pk self; values !! k with
  | None => FeatureState.get_feature_state_value values self = PyNone
  | Some row =>
      (FeatureStateValue.type row = PyStr INTEGER →
       FeatureState.get_feature_state_value values self
       = FeatureStateValue.integer_value row)
      ∧ (FeatureStateValue.type row = PyStr STRING →
         FeatureState.get_feature_state_value values self
         = FeatureStateValue.string_value row)
      ∧ (FeatureStateValue.type row = PyStr BOOLEAN →
         FeatureState.get_feature_state_value values self
         = FeatureStateValue.boolean_value row)
      ∧ (FeatureStateValue.type row ≠ PyStr INTEGER →
         FeatureStateValue.type row ≠ PyStr STRING →
         FeatureStateValue.type row ≠ PyStr BOOLEAN →
         FeatureState.get_feature_state_value values self = PyNone)
  end.
Proof.
  intros (His & Hib & Hsb). unfold FeatureState.get_feature_state_value.
  destruct (k ← FeatureState.pk self; values !! k) as [row|]; [|reflexivity].
  split_and!.
  - intros ->.
    rewrite lookup_insert_ne, lookup_insert_ne, lookup_insert_eq by done.
    reflexivity.
  - intros ->. rewrite lookup_insert_ne, lookup_insert_eq by done. reflexivity.
  - intros ->. rewrite lookup_insert_eq. reflexivity.
  - intros Hi Hs Hb. destruct (FeatureStateValue.type row) as [| | |tag];
      try reflexivity.
    rewrite !lookup_insert_ne, lookup_empty by congruence. reflexivity.
Qed.

(** X11. The data prepared for a value always names one of the three tags,
    carries the id of the state, and puts the value in the slot that belongs
    to the tag it names, the other slots being absent.  A value whose Python
    type is none of the tags is filed as a string. *)
Theorem value_data_slot_matches_tag self (value : PyValue) :
  distinct_tags →
  let data := generate_feature_state_value_data self value in
  ∃ tag : string,
    data !! "type" = Some (PyStr tag)
    ∧ (tag = INTEGER ∨ tag = BOOLEAN ∨ tag = STRING)
    ∧ (accepted (type_name value) = false → tag = STRING)
    ∧ data !! "feature_state" = Some (id_value self)
    ∧ data !! FeatureState.get_feature_state_key_name tag = Some value
    ∧ size data = 3%nat.
Proof.
  intros Htags data.
  pose proof (key_name_of_tags Htags) as (Hki & Hkb & Hks).
  assert (∃ tag : string,
            (if accepted (type_name value) then type_name value else STRING) = tag
            ∧ (tag = INTEGER ∨ tag = BOOLEAN ∨ tag = STRING)
            ∧ (accepted (type_name value) = false → tag = STRING)
            ∧ FeatureState.get_feature_state_key_name tag
              = FeatureState.get_feature_state_key_name (type_name value))
    as (tag & Htag & Hcases & Hother & Hkey).
  { unfold accepted. simpl.
    destruct (String.eqb_spec (type_name value) STRING) as [->|Hs]; simpl.
    { exists STRING. auto 6. }
    destruct (String.eqb_spec (type_name value) INTEGER) as [->|Hi]; simpl.
    { exists INTEGER. split_and!; auto. discriminate. }
    destruct (String.eqb_spec (type_name value) BOOLEAN) as [->|Hb]; simpl.
    { exists BOOLEAN. split_and!; auto. discriminate. }
    exists STRING. split_and!; auto.
    rewrite Hks. symmetry. apply key_name_of_other; assumption. }
  exists tag. unfold data, generate_feature_state_value_data.
  rewrite Htag, <- Hkey.
  assert (FeatureState.get_feature_state_key_name tag ≠ "type") as Hnt
    by apply key_name_not_type.
  assert (FeatureState.get_feature_state_key_name tag ≠ "feature_state") as Hnf.
  { destruct (key_name_cases tag) as [Hk | [Hk | Hk]]; rewrite Hk; discriminate. }
  split_and!; try done.
  - rewrite !lookup_insert_ne by done. apply lookup_insert_eq.
  - rewrite lookup_insert_ne by done. apply lookup_insert_eq.
  - apply lookup_insert_eq.
  - rewrite map_size_insert_None
      by (rewrite !lookup_insert_ne by done; apply lookup_empty).
    rewrite map_size_insert_None
      by (rewrite lookup_insert_ne by discriminate; apply lookup_empty).
    rewrite map_size_insert_None by apply lookup_empty.
    rewrite map_size_empty. reflexivity.
Qed.

End TypedValues.

Lemma spec_utils_distinct_tags : @distinct_tags spec_utils.
Proof. split_and!; discriminate. Qed.

Lemma get_feature_state_value_by_tag_witness :
  @distinct_tags spec_utils
  ∧ @FeatureState.get_feature_state_value spec_utils values_S1 state_S1
    = PyStr "blue"
  ∧ @FeatureState.get_feature_state_value spec_utils values_S1 default_state
    = PyNone.
Proof.
  split; [exact spec_utils_distinct_tags|]. split.
  - exact (proj1 (proj2 (@get_feature_state_value_by_tag spec_utils values_S1
                           state_S1 spec_utils_distinct_tags)) eq_refl).
  - exact (@get_feature_state_value_by_tag spec_utils values_S1 default_state
             spec_utils_distinct_tags).
Defined.

Lemma value_data_slot_matches_tag_witness :
  @distinct_tags spec_utils
  ∧ ∃ tag : string,
      @generate_feature_state_value_data spec_utils state_S1 (PyInt 5) !! "type"
      = Some (PyStr tag)
      ∧ (tag = "int" ∨ tag = "bool" ∨ tag = "unicode")
      ∧ (@accepted spec_utils "int" = false → tag = "unicode")
      ∧ @generate_feature_state_value_data spec_utils state_S1 (PyInt 5)
        !! "feature_state" = Some (PyInt 2)
      ∧ @generate_feature_state_value_data spec_utils state_S1 (PyInt 5)
        !! @FeatureState.get_feature_state_key_name spec_utils tag
        = Some (PyInt 5)
      ∧ size (@generate_feature_state_value_data spec_utils state_S1 (PyInt 5))
        = 3%nat.
Proof.
  split; [exact spec_utils_distinct_tags|].
  exact (@value_data_slot_matches_tag spec_utils state_S1 (PyInt 5)
           spec_utils_distinct_tags).
Defined.

Example value_data_of_a_string :
  @generate_feature_state_value_data spec_utils state_S1 (PyStr "blue") !! "type"
  = Some (PyStr "unicode")
  ∧ @generate_feature_state_value_data spec_utils state_S1 (PyStr "blue")
    !! "string_value" = Some (PyStr "blue")
  ∧ @generate_feature_state_value_data spec_utils state_S1 (PyInt 5)
    !! "integer_value" = Some (PyInt 5).
Proof. split_and!; reflexivity. Qed.

(** * Value rows across [save] *)

Section SavedValues.
Context `{FeatureUtils}.
Implicit Types (db : FeatureState.Database) (self saved : FeatureState.t).

Lemma save_inv db self db' saved :
  FeatureState.save db self = Return (db', saved) →
  ∃ rows k,
    FeatureState.Model_save (FeatureState.feature_states db) self
    = Return (rows, k)
    ∧ saved = FeatureState.with_pk k self
    ∧ db' = {| FeatureState.feature_states := rows;
               FeatureState.feature_state_values :=
                 FeatureStateValue.get_or_create
                   (FeatureState.feature_state_values db) k
                   (FeatureState._get_feature_state_defaults saved);
               FeatureState.webhooks :=
                 (FeatureState.webhooks db ++ [saved])%list |}.
Proof.
  unfold FeatureState.save.
  destruct (_ && _ && _); [discriminate|].
  destruct (FeatureState.Model_save _ self) as [[rows k]|e]; simpl;
    [|discriminate].
  intros [= <- <-]. eauto.
Qed.

(** X12. [save] never overwrites a value row: every row of the value table is
    still there, unchanged, after a successful save, and the only key that can
    gain a row is the primary key of the saved state. *)
Theorem save_keeps_value_rows db self db' saved :
  FeatureState.save db self = Return (db', saved) →
  (∀ j row, FeatureState.feature_state_values db !! j = Some row →
            FeatureState.feature_state_values db' !! j = Some row)
  ∧ (∀ j, FeatureState.pk saved ≠ Some j →
          FeatureState.feature_state_values db' !! j
          = FeatureState.feature_state_values db !! j)
  ∧ ∃ k, FeatureState.pk saved = Some k
         ∧ is_Some (FeatureState.feature_state_values db' !! k).
Proof.
  intros Hsave. apply save_inv in Hsave as (rows & k & _ & -> & ->). simpl.
  unfold FeatureStateValue.get_or_create.
  destruct (FeatureState.feature_state_values db !! k) as [old|] eqn:Hk.
  - split_and!; [auto|auto|eauto].
  - split_and!.
    + intros j row Hj. rewrite lookup_insert_ne; [exact Hj|congruence].
    + intros j Hj. apply lookup_insert_ne. congruence.
    + exists k. rewrite lookup_insert_eq. eauto.
Qed.

(** X13. Creating a state and reading its value back, the tags being different
    strings and no stray value row waiting under the new primary key: the
    value is [None] when the initial value of the feature is absent, and the
    initial value parsed according to its inferred tag otherwise; a tag that
    is none of the three reads as [None]. *)
Theorem save_then_get_feature_state_value db self db' saved :
  distinct_tags →
  FeatureState.pk self = None →
  FeatureState.feature_state_values db
    !! FeatureState.next_pk (FeatureState.feature_states db) = None →
  FeatureState.save db self = Return (db', saved) →
  let value := Feature.initial_value (FeatureState.feature self) in
  let tag := get_value_type value in
  FeatureState.get_feature_state_value
    (FeatureState.feature_state_values db') saved
  = if negb (truthy value || is_False value) then PyNone
    else if String.eqb tag BOOLEAN then get_boolean_from_string value
    else if String.eqb tag INTEGER then get_integer_from_string value
    else if String.eqb tag STRING then value
    else PyNone.
Proof.
  intros Htags Hpk Hfree Hsave value tag.
  pose proof (key_name_of_tags Htags) as (Hki & Hkb & Hks).
  destruct Htags as (His & Hib & Hsb).
  apply save_inv in Hsave as (rows & k & Hmodel & -> & ->). simpl.
  assert (k = FeatureState.next_pk (FeatureState.feature_states db)) as Hk.
  { unfold FeatureState.Model_save in Hmodel. rewrite Hpk in Hmodel.
    destruct (FeatureState.violated _ self); [discriminate|].
    injection Hmodel as _ <-. reflexivity. }
  rewrite <- Hk in Hfree.
  unfold FeatureState.get_feature_state_value, FeatureStateValue.get_or_create.
  rewrite Hfree. simpl. rewrite lookup_insert_eq.
  unfold FeatureState._get_feature_state_defaults. simpl.
  fold value. fold tag.
  destruct (truthy value || is_False value); simpl.
  - destruct (String.eqb_spec tag BOOLEAN) as [Hb|Hb].
    { simpl. rewrite Hb, Hkb.
      rewrite lookup_insert_ne, lookup_singleton_eq by discriminate. simpl.
      rewrite lookup_insert_eq. simpl. rewrite lookup_insert_eq. reflexivity. }
    destruct (String.eqb_spec tag INTEGER) as [Hi|Hi].
    { simpl. rewrite Hi, Hki.
      rewrite lookup_insert_ne, lookup_singleton_eq by discriminate. simpl.
      rewrite lookup_insert_ne, lookup_insert_ne, lookup_insert_eq by done.
      simpl. rewrite lookup_insert_eq. reflexivity. }
    destruct (String.eqb_spec tag STRING) as [Hs|Hs].
    { simpl. rewrite Hs, Hks.
      rewrite lookup_insert_ne, lookup_singleton_eq by discriminate. simpl.
      rewrite lookup_insert_ne, lookup_insert_eq by done.
      simpl. rewrite lookup_insert_eq. reflexivity. }
    simpl. rewrite lookup_insert_ne by apply key_name_not_type.
    rewrite lookup_singleton_eq. simpl.
    rewrite !lookup_insert_ne, lookup_empty by done. reflexivity.
  - rewrite !lookup_empty. simpl.
    rewrite lookup_insert_ne, lookup_insert_eq by done. reflexivity.
Qed.

End SavedValues.

Lemma save_keeps_value_rows_witness :
  ∃ db' saved,
    @FeatureState.save spec_utils
      {| FeatureState.feature_states := [state_S1];
         FeatureState.feature_state_values := values_S1;
         FeatureState.webhooks := [] |}
      state_S1 = Return (db', saved)
    ∧ FeatureState.feature_state_values db' !! 2%Z = values_S1 !! 2%Z
    ∧ is_Some (values_S1 !! 2%Z).
Proof.
  eexists _, _. split; [reflexivity|]. split; [|eexists; reflexivity].
  destruct (values_S1 !! 2%Z) as [row|] eqn:Hrow; [|discriminate Hrow].
  exact (proj1 (@save_keeps_value_rows spec_utils
                  {| FeatureState.feature_states := [state_S1];
                     FeatureState.feature_state_values := values_S1;
                     FeatureState.webhooks := [] |}
                  state_S1 _ _ eq_refl) 2%Z row Hrow).
Defined.

Lemma save_then_get_feature_state_value_witness :
  ∃ db' saved,
    @FeatureState.save spec_utils empty_db
      (new_state_with_initial_value (PyStr "42")) = Return (db', saved)
    ∧ @FeatureState.get_feature_state_value spec_utils
        (FeatureState.feature_state_values db') saved = PyInt 42.
Proof.
  eexists _, _. split; [reflexivity|].
  exact (@save_then_get_feature_state_value spec_utils empty_db
           (new_state_with_initial_value (PyStr "42")) _ _
           spec_utils_distinct_tags eq_refl eq_refl eq_refl).
Defined.

(** * Creating overrides *)

Section Overrides.
Context `{FeatureUtils}.
Implicit Types (db : FeatureState.Database) (self r : FeatureState.t)
  (rows : list FeatureState.t).

Lemma violated_some rows self (c : string) :
  (∀ r, In r rows → FeatureState.conflict r self = None
                    ∨ FeatureState.conflict r self = Some c) →
  (∃ r, In r rows ∧ FeatureState.conflict r self = Some c) →
  FeatureState.violated rows self = Some c.
Proof.
  induction rows as [|r rows IH]; simpl; intros Hall [r0 [Hin Hr0]]; [done|].
  destruct (Hall r (or_introl eq_refl)) as [Hr|Hr]; rewrite Hr; [|reflexivity].
  apply IH; [auto|]. destruct Hin as [<-|Hin]; [congruence|eauto].
Qed.

Lemma sql_eq_true (a b : option Z) :
  FeatureState.sql_eq a b = true ↔ ∃ x, a = Some x ∧ b = Some x.
Proof.
  destruct a as [x|], b as [y|]; simpl.
  - rewrite Z.eqb_eq. split; [intros ->; eauto|]. intros [z [[= ->] [= ->]]].
    reflexivity.
  - split; [discriminate|]. intros [z [_ [=]]].
  - split; [discriminate|]. intros [z [[=] _]].
  - split; [discriminate|]. intros [z [[=] _]].
Qed.

(** What an identity override without segment can collide with. *)
Lemma conflict_identity_override r self :
  is_set (FeatureState.identity self) = true →
  FeatureState.feature_segment self = None →
  FeatureState.conflict r self
  = if negb (is_set (FeatureState.feature_segment r))
       && (FeatureState.sql_eq (FeatureState.environment r)
             (FeatureState.environment self)
           && FeatureState.sql_eq (Feature.pk (FeatureState.feature r))
                (Feature.pk (FeatureState.feature self)))
       && FeatureState.sql_eq (FeatureState.identity r)
            (FeatureState.identity self)
    then Some "unique_for_identity" else None.
Proof.
  intros Hid Hseg. unfold FeatureState.conflict. rewrite Hid, Hseg. simpl.
  rewrite !andb_false_r. simpl. rewrite andb_true_r. reflexivity.
Qed.

(** X14. Creating an identity override (no segment) is never stopped by the
    duplicate pre-check, whatever rows the environment already has: it fails,
    with the integrity error of [unique_for_identity], exactly when a stored
    segment-less row has the same environment, feature and identity, and
    otherwise appends the override under a fresh primary key. *)
Theorem save_new_identity_override db self :
  FeatureState.pk self = None →
  is_set (FeatureState.identity self) = true →
  FeatureState.feature_segment self = None →
  (identity_override_taken (FeatureState.feature_states db) self →
   FeatureState.save db self = Raise (IntegrityError "unique_for_identity"))
  ∧ (¬ identity_override_taken (FeatureState.feature_states db) self →
     ∃ db' saved,
       FeatureState.save db self = Return (db', saved)
       ∧ saved = FeatureState.with_pk
                   (FeatureState.next_pk (FeatureState.feature_states db)) self
       ∧ FeatureState.feature_states db'
         = (FeatureState.feature_states db ++ [saved])%list).
Proof.
  intros Hpk Hid Hseg.
  assert (∀ r, FeatureState.conflict r self = Some "unique_for_identity"
               ↔ identity_override_taken [r] self) as Hconflict.
  { intros r. rewrite conflict_identity_override by assumption.
    unfold identity_override_taken. split.
    - destruct (negb _ && _ && _) eqn:Hc; [|discriminate]. intros _.
      apply andb_true_iff in Hc as [Hc Hi]. apply andb_true_iff in Hc as [Hs Hc].
      apply andb_true_iff in Hc as [He Hf].
      apply sql_eq_true in Hi as [i [Hi Hi']]. apply sql_eq_true in He as [e [He He']].
      apply sql_eq_true in Hf as [f [Hf Hf']].
      exists r, e, f, i. split; [left; reflexivity|].
      destruct (FeatureState.feature_segment r); [discriminate|]. auto 10.
    - intros (r' & e & f & i & [<-|[]] & Hs & He & He' & Hf & Hf' & Hi & Hi').
      rewrite Hs, He, He', Hf, Hf', Hi, Hi'. simpl. rewrite !Z.eqb_refl.
      reflexivity. }
  assert (∀ r, FeatureState.conflict r self = None
               ∨ FeatureState.conflict r self = Some "unique_for_identity")
    as Hcases.
  { intros r. rewrite conflict_identity_override by assumption.
    destruct (negb _ && _ && _); auto. }
  unfold FeatureState.save.
  replace (negb (is_set (FeatureState.identity self)
                 || is_set (FeatureState.feature_segment self))) with false
    by (rewrite Hid; reflexivity).
  rewrite andb_false_r. unfold FeatureState.Model_save. rewrite Hpk. split.
  - intros (r & e & f & i & Hin & Hrest).
    rewrite (violated_some _ self "unique_for_identity"); [reflexivity|auto|].
    exists r. split; [exact Hin|]. apply Hconflict.
    exists r, e, f, i. split; [left; reflexivity|exact Hrest].
  - intros Hfree. rewrite violated_none; [simpl; eauto|].
    intros r Hin. destruct (Hcases r) as [Hr|Hr]; [exact Hr|].
    destruct Hfree. apply Hconflict in Hr as (r' & e & f & i & [<-|[]] & Hrest).
    exists r, e, f, i. auto.
Qed.

End Overrides.

Lemma save_new_identity_override_witness :
  @FeatureState.save spec_utils (db_of [identity_state]) new_identity_override
  = Raise (IntegrityError "unique_for_identity")
  ∧ ∃ db' saved,
      @FeatureState.save spec_utils (db_of [default_state; state_S1])
        new_identity_override = Return (db', saved)
      ∧ saved = FeatureState.with_pk 3 new_identity_override
      ∧ FeatureState.feature_states db' = [default_state; state_S1; saved].
Proof.
  split.
  - apply (@save_new_identity_override spec_utils (db_of [identity_state])
             new_identity_override eq_refl eq_refl eq_refl).
    exists identity_state, 1%Z, 1%Z, 7%Z.
    split; [left; reflexivity|]. split_and!; reflexivity.
  - apply (@save_new_identity_override spec_utils
             (db_of [default_state; state_S1])
             new_identity_override eq_refl eq_refl eq_refl).
    intros (r & e & f & i & Hin & Hseg & _ & _ & _ & _ & Hid & _).
    destruct Hin as [<-|[<-|[]]]; [discriminate Hid|discriminate Hseg].
Defined.

(** * The life cycle of a feature and its default states *)

Section FeatureLifecycle.
Context `{FeatureUtils}.
Implicit Types (db : FeatureState.Database) (w : World) (feature : Feature.t)
  (rows : list FeatureState.t) (envs : list Z) (defaults : gmap string bool).

Lemma Model_save_rows rows (s : FeatureState.t) rows' k :
  FeatureState.Model_save rows s = Return (rows', k) →
  (FeatureState.pk s = None ∧ k = FeatureState.next_pk rows
   ∧ rows' = (rows ++ [FeatureState.with_pk k s])%list)
  ∨ (FeatureState.pk s = Some k
     ∧ rows' = if existsb (λ r, bool_decide (FeatureState.pk r = Some k)) rows
               then map (λ r, if bool_decide (FeatureState.pk r = Some k)
                              then s else r) rows
               else (rows ++ [s])%list).
Proof.
  unfold FeatureState.Model_save.
  destruct (FeatureState.pk s) as [j|].
  - destruct (FeatureState.violated _ s); [discriminate|].
    destruct (existsb _ rows) eqn:Hex; intros [= <- <-]; right; rewrite Hex; done.
  - destruct (FeatureState.violated _ s); [discriminate|].
    intros [= <- <-]. left. done.
Qed.

Lemma with_pk_same (s : FeatureState.t) k :
  FeatureState.pk s = Some k → FeatureState.with_pk k s = s.
Proof. destruct s as [pk ? ? ? ? ?]. simpl. intros ->. reflexivity. Qed.

(** What a successful [update_or_create] did: one [save], of a new default
    state or of the default row it found. *)
Lemma update_or_create_inv db feature env defaults db' :
  update_or_create db feature env defaults = Done db' →
  ∃ s saved,
    FeatureState.save db s = Return (db', saved)
    ∧ FeatureState.feature s = feature
    ∧ FeatureState.environment s = Some env
    ∧ FeatureState.identity s = None
    ∧ FeatureState.feature_segment s = None
    ∧ ((FeatureState.pk s = None
        ∧ List.filter (is_default_of feature env) (FeatureState.feature_states db)
          = []
        ∧ FeatureState.enabled s = default false (defaults !! "enabled"))
       ∨ ∃ obj, In obj (FeatureState.feature_states db)
                ∧ is_default_of feature env obj = true
                ∧ FeatureState.pk s = FeatureState.pk obj
                ∧ FeatureState.enabled s
                  = default (FeatureState.enabled obj) (defaults !! "enabled")).
Proof.
  unfold update_or_create.
  destruct (List.filter _ _) as [|obj [|obj' rest]] eqn:Hfound; [| |discriminate].
  - match goal with |- context [FeatureState.save db ?s] => set (new := s) end.
    destruct (FeatureState.save db new) as [[db1 saved]|e] eqn:Hsave; simpl;
      [|discriminate].
    intros [= <-]. exists new, saved. split_and!; try done. left. done.
  - assert (In obj (FeatureState.feature_states db)
            ∧ is_default_of feature env obj = true) as [Hin Hobj].
    { apply filter_In. rewrite Hfound. left. reflexivity. }
    match goal with |- context [FeatureState.save db ?s] => set (old := s) end.
    destruct (FeatureState.save db old) as [[db1 saved]|e] eqn:Hsave; simpl;
      [|discriminate].
    intros [= <-]. exists old, saved.
    unfold is_default_of in Hobj.
    apply andb_true_iff in Hobj as [Hobj Hseg].
    apply andb_true_iff in Hobj as [Hobj Hid].
    apply andb_true_iff in Hobj as [Hfeat Henv].
    apply bool_decide_eq_true in Henv.
    split_and!; try done.
    + simpl. by destruct (FeatureState.identity obj).
    + simpl. by destruct (FeatureState.feature_segment obj).
    + right. exists obj. split_and!; try done.
      unfold is_default_of. rewrite Hfeat, Hid, Hseg.
      by rewrite bool_decide_eq_true_2.
Qed.

(** A default row found by the lookup has a usable primary key when it can be
    written back: the pre-check would stop it otherwise. *)
Lemma rewritten_row_has_pk db feature env (s obj saved : FeatureState.t) db' :
  FeatureState.save db s = Return (db', saved) →
  In obj (FeatureState.feature_states db) →
  is_default_of feature env obj = true →
  FeatureState.feature s = feature →
  FeatureState.environment s = Some env →
  FeatureState.identity s = None →
  FeatureState.feature_segment s = None →
  FeatureState.pk s = FeatureState.pk obj →
  ∃ k, FeatureState.pk obj = Some k.
Proof.
  intros Hsave Hin Hobj Hfeat Henv Hid Hseg Hpk.
  destruct (FeatureState.pk obj) as [k|] eqn:Hk; [eauto|].
  unfold FeatureState.save, FeatureState.pk_falsy in Hsave.
  rewrite Hpk, Hid, Hseg in Hsave. simpl in Hsave.
  rewrite (proj2 (exists_for_environment_and_feature_iff _ s)) in Hsave;
    [discriminate|].
  exists obj. split; [exact Hin|].
  unfold is_default_of in Hobj.
  apply andb_true_iff in Hobj as [Hobj _]. apply andb_true_iff in Hobj as [Hobj _].
  apply andb_true_iff in Hobj as [Hf He].
  apply bool_decide_eq_true in Hf. apply bool_decide_eq_true in He.
  split; [congruence|]. rewrite Hfeat. exact Hf.
Qed.

(** One turn of the loop of [Feature.save] with empty [defaults]: every row is
    a row that was there, up to the feature instance cached on it, or a new
    default that is switched off. *)
Lemma update_or_create_rows db feature env db' :
  update_or_create db feature env ∅ = Done db' →
  ∀ r', In r' (FeatureState.feature_states db') →
        (∃ r, In r (FeatureState.feature_states db) ∧ columns r' = columns r)
        ∨ disabled_default_of feature env r'.
Proof.
  intros Hstep.
  apply update_or_create_inv in Hstep
    as (s & saved & Hsave & Hfeat & Henv & Hid & Hseg & Hkind).
  pose proof (save_inv _ _ _ _ Hsave) as (rows & k & Hmodel & -> & ->). simpl.
  apply Model_save_rows in Hmodel as [(Hpk & _ & ->)|(Hpk & ->)].
  - intros r' [Hold| [<-|[]]]%in_app_or; [left; eauto|].
    right. destruct Hkind as [(_ & _ & Hen)|(obj & Hin & Hobj & Hpk' & _)].
    + rewrite lookup_empty in Hen. unfold disabled_default_of. simpl.
      rewrite Hfeat. done.
    + destruct (rewritten_row_has_pk _ _ _ _ _ _ _ Hsave Hin Hobj Hfeat Henv
                  Hid Hseg Hpk') as [j Hj]. congruence.
  - destruct Hkind as [(Hnone & _)|(obj & Hin & Hobj & Hpk' & Hen)];
      [congruence|].
    rewrite (proj2 (existsb_exists _ _)).
    2:{ exists obj. split; [exact Hin|]. apply bool_decide_eq_true. congruence. }
    intros r' (r & <- & Hr)%in_map_iff. left.
    case_bool_decide as Hrk; [|eauto].
    exists obj. split; [exact Hin|].
    unfold is_default_of in Hobj.
    apply andb_true_iff in Hobj as [Hobj Hs]. apply andb_true_iff in Hobj as [Hobj Hi].
    apply andb_true_iff in Hobj as [Hf He].
    apply bool_decide_eq_true in Hf. apply bool_decide_eq_true in He.
    rewrite lookup_empty in Hen. simpl in Hen. unfold columns.
    destruct (FeatureState.identity obj); [discriminate|].
    destruct (FeatureState.feature_segment obj); [discriminate|].
    rewrite Hpk', Hfeat, Hf, Henv, He, Hid, Hseg, Hen. reflexivity.
Qed.

Lemma disabled_default_of_columns feature env (r r' : FeatureState.t) :
  columns r' = columns r → disabled_default_of feature env r →
  disabled_default_of feature env r'.
Proof.
  unfold columns, disabled_default_of. intros [= _ -> -> -> -> ->]. done.
Qed.

(** The whole loop with empty [defaults]. *)
Lemma for_each_rows feature envs db db' :
  for_each (λ db env, update_or_create db feature env ∅) db envs = Done db' →
  ∀ r', In r' (FeatureState.feature_states db') →
        (∃ r, In r (FeatureState.feature_states db) ∧ columns r' = columns r)
        ∨ ∃ env, In env envs ∧ disabled_default_of feature env r'.
Proof.
  revert db. induction envs as [|env envs IH]; intros db; simpl.
  - intros [= <-] r' Hr'. left. eauto.
  - destruct (update_or_create db feature env ∅) as [db1|e] eqn:Hstep;
      [|discriminate].
    simpl. intros Hrest r' Hr'.
    destruct (IH _ Hrest r' Hr') as [(r1 & Hr1 & Hcols)|(env' & Hin & Hfresh)].
    + destruct (update_or_create_rows _ _ _ _ Hstep r1 Hr1)
        as [(r & Hr & Hcols')|Hfresh].
      * left. exists r. split; [exact Hr|congruence].
      * right. exists env. split; [left; reflexivity|].
        eapply disabled_default_of_columns; eassumption.
    + right. exists env'. auto.
Qed.

(** The calls made to the dispatcher by the loop, whatever [defaults] is. *)
Lemma for_each_webhooks feature defaults envs db db' :
  for_each (λ db env, update_or_create db feature env defaults) db envs
  = Done db' →
  ∃ calls,
    FeatureState.webhooks db' = (FeatureState.webhooks db ++ calls)%list
    ∧ map FeatureState.environment calls = map Some envs
    ∧ Forall (λ c, FeatureState.feature c = feature
                   ∧ FeatureState.identity c = None
                   ∧ FeatureState.feature_segment c = None) calls.
Proof.
  revert db. induction envs as [|env envs IH]; intros db; simpl.
  - intros [= <-]. exists []. rewrite app_nil_r. done.
  - destruct (update_or_create db feature env defaults) as [db1|e] eqn:Hstep;
      [|discriminate].
    simpl. intros Hrest.
    apply update_or_create_inv in Hstep
      as (s & saved & Hsave & Hfeat & Henv & Hid & Hseg & _).
    apply save_inv in Hsave as (rows & k & _ & -> & ->).
    destruct (IH _ Hrest) as (calls & Hcalls & Henvs & Hall). simpl in Hcalls.
    exists (FeatureState.with_pk k s :: calls). split_and!.
    + rewrite Hcalls, <- app_assoc. reflexivity.
    + simpl. rewrite Henv, Henvs. reflexivity.
    + constructor; [done|exact Hall].
Qed.

(** The steps of a successful [Feature.save]. *)
Lemma Feature_save_inv w (self saved : Feature.t) w' :
  Feature_save w self = Done (w', saved) →
  ∃ defaults db (stored : list Feature.t) k,
    ((Feature_pk_truthy self = false
      ∧ defaults = {[ "enabled" := Feature.default_enabled self ]}
      ∧ db = states w)
     ∨ (Feature_pk_truthy self = true ∧ defaults = ∅
        ∧ ∃ old_feature,
            find (λ r, bool_decide (Feature.pk r = Feature.pk self)) (features w)
            = Some old_feature
            ∧ db = if negb (Feature.project old_feature
                            =? Feature.project self)%Z
                   then delete_feature_states (states w) self
                          (project_environments w (Feature.project old_feature))
                   else states w))
    ∧ Feature_Model_save (features w) self = Return (stored, k)
    ∧ saved = Feature_with_pk k self
    ∧ for_each (λ db env, update_or_create db saved env defaults) db
        (project_environments w (Feature.project self))
      = Done (states w')
    ∧ features w' = stored
    ∧ environments w' = environments w.
Proof.
  unfold Feature_save.
  destruct (Feature_pk_truthy self) eqn:Htruthy.
  - destruct (find _ (features w)) as [old_feature|] eqn:Hold; [|discriminate].
    destruct (negb (Feature.project old_feature =? Feature.project self)%Z)
      eqn:Hmoved; simpl;
      (destruct (Feature_Model_save (features w) self) as [[rows k]|e];
         [|discriminate]); simpl;
      match goal with
      | |- context [for_each ?f ?db ?l] =>
          destruct (for_each f db l) as [db'|e] eqn:Hloop; [|discriminate]
      end; simpl; intros [= <- <-];
      eexists ∅, _, rows, k; (split; [right; split_and!; try done; eexists;
        split; [reflexivity|]; rewrite Hmoved; reflexivity|]); done.
  - simpl.
    destruct (Feature_Model_save (features w) self) as [[rows k]|e];
      [|discriminate]. simpl.
    match goal with
    | |- context [for_each ?f ?db ?l] =>
        destruct (for_each f db l) as [db'|e] eqn:Hloop; [|discriminate]
    end. simpl. intros [= <- <-].
    eexists _, _, rows, k. split; [left; done|]. done.
Qed.

(** X15. A successful [Feature.save] calls the webhook dispatcher once for
    every environment of the feature's project, in the order of the
    environments and each time with a default state of the saved feature,
    whether or not anything changed. *)
Theorem Feature_save_notifies_each_environment w (self saved : Feature.t) w' :
  Feature_save w self = Done (w', saved) →
  ∃ calls,
    FeatureState.webhooks (states w')
    = (FeatureState.webhooks (states w) ++ calls)%list
    ∧ map FeatureState.environment calls
      = map Some (project_environments w (Feature.project self))
    ∧ Forall (λ c, FeatureState.feature c = saved
                   ∧ FeatureState.identity c = None
                   ∧ FeatureState.feature_segment c = None) calls.
Proof.
  intros Hsave.
  apply Feature_save_inv in Hsave
    as (defaults & db & stored & k & Hprep & _ & _ & Hloop & _).
  apply for_each_webhooks in Hloop as (calls & Hcalls & Hrest).
  exists calls. split; [|exact Hrest]. rewrite Hcalls. f_equal.
  destruct Hprep as [(_ & _ & ->)|(_ & _ & old_feature & _ & ->)];
    [reflexivity|].
  destruct (negb _); reflexivity.
Qed.


(** X17. When a feature is saved with another project than the stored one,
    its states in the environments of the old project are gone, overrides
    included: a state the feature has there afterwards can only be a new,
    switched-off default for an environment that the new project has as
    well. *)
Theorem Feature_save_moved_clears_old_environments w (self saved old_feature : Feature.t)
    w' :
  Feature_pk_truthy self = true →
  find (λ r, bool_decide (Feature.pk r = Feature.pk self)) (features w)
  = Some old_feature →
  Feature.project old_feature ≠ Feature.project self →
  Feature_save w self = Done (w', saved) →
  ∀ r' env,
    In r' (FeatureState.feature_states (states w')) →
    Feature.pk (FeatureState.feature r') = Feature.pk self →
    FeatureState.environment r' = Some env →
    In env (project_environments w (Feature.project old_feature)) →
    In env (project_environments w (Feature.project self))
    ∧ disabled_default_of saved env r'.
Proof.
  intros Htruthy Hold Hmoved Hsave r' env Hr' Hfeat Henv Hin.
  apply Feature_save_inv in Hsave
    as (defaults & db & stored & k & Hprep & _ & _ & Hloop & _).
  destruct Hprep as [(Hfalse & _)|(_ & -> & old' & Hold' & ->)]; [congruence|].
  rewrite Hold in Hold'. injection Hold' as <-.
  rewrite (proj2 (negb_true_iff _)) in Hloop by (apply Z.eqb_neq, Hmoved).
  destruct (for_each_rows _ _ _ _ Hloop r' Hr') as [(r & Hr & Hcols)|Hnew].
  - simpl in Hr. apply filter_In in Hr as [_ Hkept].
    apply negb_true_iff in Hkept. unfold in_environments in Hkept.
    unfold columns in Hcols. injection Hcols as _ Hf He _ _ _.
    rewrite <- Hf, <- He, Hfeat, Henv in Hkept.
    rewrite !bool_decide_eq_true_2 in Hkept; [discriminate| |reflexivity].
    apply list_elem_of_In, Hin.
  - destruct Hnew as (env' & Hin' & Hfresh).
    assert (env' = env) as ->.
    { destruct Hfresh as (_ & He & _). congruence. }
    done.
Qed.

Lemma filter_none {A : Type} (f : A → bool) (l : list A) :
  (∀ x, In x l → f x = false) → List.filter f l = [].
Proof.
  induction l as [|x l IH]; simpl; intros Hall; [reflexivity|].
  rewrite (Hall x (or_introl eq_refl)). apply IH. intros y Hy.
  apply Hall. right. exact Hy.
Qed.

(** A new default is written when its environment has no row of the
    feature. *)
Lemma save_new_default db (s : FeatureState.t) :
  FeatureState.pk s = None →
  FeatureState.identity s = None →
  FeatureState.feature_segment s = None →
  (∀ r, In r (FeatureState.feature_states db) →
        Feature.pk (FeatureState.feature r) = Feature.pk (FeatureState.feature s) →
        FeatureState.environment r ≠ FeatureState.environment s) →
  ∃ db',
    FeatureState.save db s
    = Return (db', FeatureState.with_pk
                     (FeatureState.next_pk (FeatureState.feature_states db)) s)
    ∧ FeatureState.feature_states db'
      = (FeatureState.feature_states db
         ++ [FeatureState.with_pk
               (FeatureState.next_pk (FeatureState.feature_states db)) s])%list.
Proof.
  intros Hpk Hid Hseg Hother. unfold FeatureState.save, FeatureState.pk_falsy.
  rewrite Hpk, Hid, Hseg. simpl.
  destruct (FeatureState.exists_for_environment_and_feature _ s) eqn:Hex.
  - apply exists_for_environment_and_feature_iff in Hex as [r [Hin [He Hf]]].
    destruct (Hother r Hin Hf He).
  - simpl. unfold FeatureState.Model_save. rewrite Hpk.
    rewrite violated_none; [simpl; eauto|].
    intros r Hin. apply conflict_needs_same_scope. auto.
Qed.

(** One turn of the loop for an environment without any row of the
    feature. *)
Lemma update_or_create_creates db feature env defaults :
  (∀ r, In r (FeatureState.feature_states db) →
        Feature.pk (FeatureState.feature r) = Feature.pk feature →
        FeatureState.environment r ≠ Some env) →
  ∃ db' (new : FeatureState.t),
    update_or_create db feature env defaults = Done db'
    ∧ FeatureState.feature_states db'
      = (FeatureState.feature_states db ++ [new])%list
    ∧ FeatureState.feature new = feature
    ∧ FeatureState.environment new = Some env
    ∧ is_default new
    ∧ FeatureState.enabled new = default false (defaults !! "enabled")
    ∧ is_Some (FeatureState.pk new).
Proof.
  intros Hfree. unfold update_or_create.
  rewrite filter_none.
  2:{ intros r Hr. unfold is_default_of.
      destruct (bool_decide (Feature.pk (FeatureState.feature r)
                             = Feature.pk feature)) eqn:Hf; [|reflexivity].
      apply bool_decide_eq_true in Hf.
      rewrite bool_decide_eq_false_2; [reflexivity|].
      apply (Hfree r Hr Hf). }
  match goal with |- context [FeatureState.save db ?s] => set (new := s) end.
  destruct (save_new_default db new eq_refl eq_refl eq_refl) as [db1 [Hsave Hrows]].
  { intros r Hr Hf. apply (Hfree r Hr Hf). }
  rewrite Hsave. simpl.
  exists db1, (FeatureState.with_pk
                 (FeatureState.next_pk (FeatureState.feature_states db)) new).
  split; [reflexivity|].
  split; [exact Hrows|]. unfold is_default. simpl. eauto 10.
Qed.

(** The loop over environments none of which has a row of the feature. *)
Lemma for_each_creates feature (flag : bool) envs db :
  NoDup envs →
  (∀ r env, In r (FeatureState.feature_states db) → In env envs →
            Feature.pk (FeatureState.feature r) = Feature.pk feature →
            FeatureState.environment r ≠ Some env) →
  ∃ db' created,
    for_each (λ db env, update_or_create db feature env {[ "enabled" := flag ]})
             db envs = Done db'
    ∧ FeatureState.feature_states db'
      = (FeatureState.feature_states db ++ created)%list
    ∧ map FeatureState.environment created = map Some envs
    ∧ Forall (λ r, FeatureState.feature r = feature
                   ∧ is_default r
                   ∧ FeatureState.enabled r = flag
                   ∧ is_Some (FeatureState.pk r)) created.
Proof.
  revert db. induction envs as [|env envs IH]; intros db Hnodup Hfree.
  - exists db, []. simpl. rewrite app_nil_r. done.
  - apply NoDup_cons in Hnodup as [Hnotin Hnodup]. cbn [for_each].
    destruct (update_or_create_creates db feature env {[ "enabled" := flag ]})
      as (db1 & new & Hstep & Hrows & Hfeat & Henv & Hdef & Hflag & Hpk).
    { intros r Hr Hf. apply (Hfree r env Hr); [left; reflexivity|exact Hf]. }
    rewrite Hstep. simpl.
    destruct (IH db1 Hnodup) as (db' & created & Hloop & Hrows' & Henvs & Hall).
    { intros r env' Hr Henv' Hf. rewrite Hrows in Hr.
      apply in_app_or in Hr as [Hr|[<-|[]]].
      - apply (Hfree r env' Hr); [right; exact Henv'|exact Hf].
      - rewrite Henv. intros [= ->]. apply Hnotin, list_elem_of_In, Henv'. }
    exists db', (new :: created). split_and!.
    + exact Hloop.
    + rewrite Hrows', Hrows, <- app_assoc. reflexivity.
    + simpl. rewrite Henv, Henvs. reflexivity.
    + constructor; [|exact Hall]. rewrite lookup_singleton_eq in Hflag. done.
Qed.

(** X18. Creating a feature whose name is free in its project, in tables
    where no state refers to the primary key it is going to get: the save
    succeeds, stores the feature under that key, keeps every state row and
    appends one default state per environment of the project, in order, each
    for the new feature, with a primary key and with [enabled] set to the
    feature's [default_enabled]. *)
Theorem Feature_save_new_creates_defaults w (self : Feature.t) :
  Feature.pk self = None →
  Feature_name_taken (features w) self = false →
  NoDup (project_environments w (Feature.project self)) →
  (∀ r, In r (FeatureState.feature_states (states w)) →
        Feature.pk (FeatureState.feature r)
        ≠ Some (Feature_next_pk (features w))) →
  let saved := Feature_with_pk (Feature_next_pk (features w)) self in
  ∃ w' created,
    Feature_save w self = Done (w', saved)
    ∧ features w' = (features w ++ [saved])%list
    ∧ FeatureState.feature_states (states w')
      = (FeatureState.feature_states (states w) ++ created)%list
    ∧ map FeatureState.environment created
      = map Some (project_environments w (Feature.project self))
    ∧ Forall (λ r, FeatureState.feature r = saved
                   ∧ is_default r
                   ∧ FeatureState.enabled r = Feature.default_enabled self
                   ∧ is_Some (FeatureState.pk r)) created.
Proof.
  intros Hpk Hname Hnodup Hfresh saved.
  destruct (for_each_creates saved (Feature.default_enabled self)
              (project_environments w (Feature.project self)) (states w) Hnodup)
    as (db' & created & Hloop & Hrows & Henvs & Hall).
  { intros r env Hr _ Hf. destruct (Hfresh r Hr Hf). }
  unfold Feature_save, Feature_pk_truthy, Feature_Model_save.
  rewrite Hpk, Hname.
  cbn -[for_each update_or_create project_environments Feature_with_pk
        Feature_next_pk].
  fold saved. change (Feature.project saved) with (Feature.project self).
  rewrite Hloop. simpl. eexists _, created. done.
Qed.

Lemma next_pk_fresh rows (r : FeatureState.t) :
  In r rows → FeatureState.pk r ≠ Some (FeatureState.next_pk rows).
Proof.
  intros Hin Hpk.
  assert (default 0 (FeatureState.pk r)
          ≤ foldr (λ r m, Z.max (default 0 (FeatureState.pk r)) m) 0 rows)%Z.
  { clear Hpk. induction rows as [|x rows IH]; [destruct Hin|]. simpl.
    destruct Hin as [<-|Hin]; [lia|]. specialize (IH Hin). lia. }
  rewrite Hpk in *. unfold FeatureState.next_pk in *. simpl in *. lia.
Qed.

Lemma NoDup_map_eq {A B : Type} (f : A → B) (l : list A) (x y : A) :
  NoDup (map f l) → In x l → In y l → f x = f y → x = y.
Proof.
  induction l as [|a l IH]; simpl; [intros _ []|].
  intros [Hnotin Hnodup]%NoDup_cons [<-|Hx] [<-|Hy] Heq; try reflexivity.
  - destruct Hnotin. rewrite Heq. apply list_elem_of_In, in_map, Hy.
  - destruct Hnotin. rewrite <- Heq. apply list_elem_of_In, in_map, Hx.
  - apply IH; assumption.
Qed.

Lemma is_default_of_columns feature env (r r' : FeatureState.t) :
  columns r' = columns r →
  is_default_of feature env r' = is_default_of feature env r.
Proof.
  unfold columns, is_default_of. intros [= _ -> -> -> -> _]. reflexivity.
Qed.

(** With unique primary keys, a turn of the loop loses no row and keeps the
    keys unique. *)
Lemma update_or_create_keeps db feature env db' :
  NoDup (map FeatureState.pk (FeatureState.feature_states db)) →
  update_or_create db feature env ∅ = Done db' →
  NoDup (map FeatureState.pk (FeatureState.feature_states db'))
  ∧ ∀ r, In r (FeatureState.feature_states db) →
         ∃ r', In r' (FeatureState.feature_states db') ∧ columns r' = columns r.
Proof.
  intros Hkeys Hstep.
  apply update_or_create_inv in Hstep
    as (s & saved & Hsave & Hfeat & Henv & Hid & Hseg & Hkind).
  pose proof (save_inv _ _ _ _ Hsave) as (rows & k & Hmodel & -> & ->). simpl.
  apply Model_save_rows in Hmodel as [(Hpk & -> & ->)|(Hpk & ->)].
  - split.
    + rewrite map_app. simpl. apply NoDup_app. split; [exact Hkeys|].
      split; [|apply NoDup_singleton].
      intros pk Hin ->%list_elem_of_singleton.
      apply list_elem_of_In, in_map_iff in Hin as (r & Hr & Hin).
      exact (next_pk_fresh _ r Hin Hr).
    + intros r Hr. exists r. split; [apply in_or_app; left; exact Hr|done].
  - destruct Hkind as [(Hnone & _)|(obj & Hin & Hobj & Hpk' & Hen)];
      [congruence|].
    rewrite (proj2 (existsb_exists _ _)).
    2:{ exists obj. split; [exact Hin|]. apply bool_decide_eq_true. congruence. }
    split.
    + rewrite map_map.
      erewrite map_ext; [exact Hkeys|]. intros r. simpl.
      case_bool_decide; congruence.
    + intros r Hr.
      exists (if bool_decide (FeatureState.pk r = Some k) then s else r).
      split; [apply in_map_iff; eauto|].
      case_bool_decide as Hrk; [|reflexivity].
      assert (r = obj) as ->.
      { apply (NoDup_map_eq FeatureState.pk _ _ _ Hkeys Hr Hin). congruence. }
      unfold is_default_of in Hobj.
      apply andb_true_iff in Hobj as [Hobj Hs].
      apply andb_true_iff in Hobj as [Hobj Hi].
      apply andb_true_iff in Hobj as [Hf He].
      apply bool_decide_eq_true in Hf. apply bool_decide_eq_true in He.
      rewrite lookup_empty in Hen. simpl in Hen. unfold columns.
      destruct (FeatureState.identity obj); [discriminate|].
      destruct (FeatureState.feature_segment obj); [discriminate|].
      rewrite Hpk', Hfeat, Hf, Henv, He, Hid, Hseg, Hen. reflexivity.
Qed.

(** The turn for an environment that has rows of the feature, none of them a
    default, is stopped by the pre-check of [FeatureState.save]. *)
Lemma update_or_create_refused db feature env defaults (r : FeatureState.t) :
  In r (FeatureState.feature_states db) →
  Feature.pk (FeatureState.feature r) = Feature.pk feature →
  FeatureState.environment r = Some env →
  (∀ r', In r' (FeatureState.feature_states db) →
         is_default_of feature env r' = false) →
  update_or_create db feature env defaults
  = Failed (Raised (ValidationError FeatureState.duplicate_message)).
Proof.
  intros Hin Hf He Hnone. unfold update_or_create.
  rewrite filter_none by exact Hnone.
  match goal with |- context [FeatureState.save db ?s] => set (new := s) end.
  assert (FeatureState.save db new
          = Raise (ValidationError FeatureState.duplicate_message)) as ->.
  { unfold FeatureState.save, FeatureState.pk_falsy. simpl.
    rewrite (proj2 (exists_for_environment_and_feature_iff _ new));
      [reflexivity|].
    exists r. split; [exact Hin|]. split; [exact He|exact Hf]. }
  reflexivity.
Qed.

Lemma for_each_refused feature envs env db :
  NoDup (map FeatureState.pk (FeatureState.feature_states db)) →
  In env envs →
  (∃ r, In r (FeatureState.feature_states db)
        ∧ Feature.pk (FeatureState.feature r) = Feature.pk feature
        ∧ FeatureState.environment r = Some env) →
  (∀ r, In r (FeatureState.feature_states db) →
        is_default_of feature env r = false) →
  ∃ e, for_each (λ db env, update_or_create db feature env ∅) db envs
       = Failed e.
Proof.
  revert db. induction envs as [|env' envs IH]; intros db Hkeys Hin Hrow Hnone;
    [destruct Hin|].
  cbn [for_each].
  destruct (decide (env' = env)) as [->|Hne].
  - destruct Hrow as (r & Hr & Hf & He).
    rewrite (update_or_create_refused db feature env ∅ r Hr Hf He Hnone).
    simpl. eauto.
  - destruct Hin as [Heq|Hin]; [congruence|].
    destruct (update_or_create db feature env' ∅) as [db1|e] eqn:Hstep;
      [|simpl; eauto].
    simpl.
    destruct (update_or_create_keeps _ _ _ _ Hkeys Hstep) as [Hkeys1 Hkept].
    apply (IH db1 Hkeys1 Hin).
    + destruct Hrow as (r & Hr & Hf & He).
      destruct (Hkept r Hr) as (r' & Hr' & Hcols). exists r'.
      split; [exact Hr'|]. unfold columns in Hcols.
      injection Hcols as _ Hf' He' _ _ _. split; congruence.
    + intros r1 Hr1.
      destruct (update_or_create_rows _ _ _ _ Hstep r1 Hr1)
        as [(r & Hr & Hcols)|Hfresh].
      * rewrite (is_default_of_columns _ _ _ _ Hcols). apply Hnone, Hr.
      * destruct Hfresh as (_ & He1 & _). unfold is_default_of.
        rewrite (bool_decide_eq_false_2 (FeatureState.environment r1 = Some env))
          by congruence.
        rewrite andb_false_r. reflexivity.
Qed.

Lemma Feature_Model_save_pk (stored stored' : list Feature.t) (self : Feature.t)
    k j :
  Feature.pk self = Some j →
  Feature_Model_save stored self = Return (stored', k) → k = j.
Proof.
  unfold Feature_Model_save. intros ->.
  destruct (Feature_name_taken _ self); [discriminate|].
  destruct (existsb _ stored); intros [= _ <-]; reflexivity.
Qed.

(** X19. Saving an existing feature, without moving it, cannot succeed when
    some environment of its project holds rows of the feature but no default
    one (primary keys being unique): the loop tries to create the missing
    default and [FeatureState.save] refuses it. *)
Theorem Feature_save_stopped_by_missing_default w (self old_feature : Feature.t)
    env :
  Feature_pk_truthy self = true →
  find (λ r, bool_decide (Feature.pk r = Feature.pk self)) (features w)
  = Some old_feature →
  Feature.project old_feature = Feature.project self →
  NoDup (map FeatureState.pk (FeatureState.feature_states (states w))) →
  In env (project_environments w (Feature.project self)) →
  (∃ r, In r (FeatureState.feature_states (states w))
        ∧ Feature.pk (FeatureState.feature r) = Feature.pk self
        ∧ FeatureState.environment r = Some env) →
  (∀ r, In r (FeatureState.feature_states (states w)) →
        is_default_of self env r = false) →
  ∃ e, Feature_save w self = Failed e.
Proof.
  intros Htruthy Hold Hsame Hkeys Henv Hrow Hnone.
  destruct (Feature_save w self) as [[w' saved]|e] eqn:Hsave; [|eauto].
  apply Feature_save_inv in Hsave
    as (defaults & db & stored & k & Hprep & Hmodel & -> & Hloop & _).
  destruct Hprep as [(Hfalse & _)|(_ & -> & old' & Hold' & ->)]; [congruence|].
  rewrite Hold in Hold'. injection Hold' as <-.
  rewrite (proj2 (negb_false_iff _)) in Hloop by (apply Z.eqb_eq, Hsame).
  assert (Feature.pk (Feature_with_pk k self) = Feature.pk self) as Hpk.
  { unfold Feature_pk_truthy in Htruthy.
    destruct (Feature.pk self) as [j|] eqn:Hj; [|discriminate].
    rewrite (Feature_Model_save_pk _ _ _ _ _ Hj Hmodel). reflexivity. }
  destruct (for_each_refused (Feature_with_pk k self)
              (project_environments w (Feature.project self)) env (states w)
              Hkeys Henv) as [e He].
  - destruct Hrow as (r & Hr & Hf & He). exists r. rewrite Hpk. done.
  - intros r Hr. rewrite <- (Hnone r Hr). unfold is_default_of.
    rewrite Hpk. reflexivity.
  - simpl in Hloop. rewrite He in Hloop. discriminate.
Qed.

End FeatureLifecycle.

Example Feature_save_Beta :
  ∃ w' saved,
    @Feature_save spec_utils sample_world new_Beta = Done (w', saved)
    ∧ map columns (FeatureState.feature_states (states w'))
      = [ (Some 1, Some 1, Some 1, None, None, false);
          (Some 2, Some 1, Some 1, None, Some segment_S1, true);
          (Some 3, Some 2, Some 1, None, None, true);
          (Some 4, Some 2, Some 2, None, None, true) ]%Z.
Proof. eexists _, _. split; reflexivity. Qed.

Lemma Feature_save_notifies_each_environment_witness :
  ∃ w' saved calls,
    @Feature_save spec_utils sample_world feature_1 = Done (w', saved)
    ∧ FeatureState.webhooks (states w')
      = (FeatureState.webhooks (states sample_world) ++ calls)%list
    ∧ map FeatureState.environment calls = [Some 1; Some 2]%Z.
Proof.
  destruct (@Feature_save_notifies_each_environment spec_utils sample_world
              feature_1 feature_1
              {| features := [feature_1];
                 environments := environments sample_world;
                 states :=
                   {| FeatureState.feature_states :=
                        [default_state; state_S1; state (Some 3) 2 None None false];
                      FeatureState.feature_state_values :=
                        <[3%Z := @FeatureStateValue.create spec_utils 3 ∅]>
                          (<[1%Z := @FeatureStateValue.create spec_utils 1 ∅]> ∅);
                      FeatureState.webhooks :=
                        [default_state; state (Some 3) 2 None None false] |} |}
              eq_refl) as (calls & Hcalls & Henvs & _).
  eexists _, _, calls. split; [reflexivity|]. split; [exact Hcalls|exact Henvs].
Defined.


Lemma Feature_save_moved_clears_old_environments_witness :
  ∃ w' saved,
    @Feature_save spec_utils sample_world feature_1_moved = Done (w', saved)
    ∧ map columns (FeatureState.feature_states (states w'))
      = [ (Some 1, Some 1, Some 3, None, None, false) ]%Z
    ∧ ∀ r' env,
        In r' (FeatureState.feature_states (states w')) →
        Feature.pk (FeatureState.feature r') = Some 1%Z →
        FeatureState.environment r' = Some env →
        In env [1; 2]%Z →
        In env [3]%Z ∧ disabled_default_of saved env r'.
Proof.
  eexists _, _. split; [reflexivity|]. split; [reflexivity|].
  assert (Feature.project feature_1 ≠ Feature.project feature_1_moved) as Hmoved
    by discriminate.
  exact (@Feature_save_moved_clears_old_environments spec_utils sample_world
           feature_1_moved _ feature_1 _ eq_refl eq_refl Hmoved eq_refl).
Defined.

Lemma Feature_save_new_creates_defaults_witness :
  ∃ w' created,
    @Feature_save spec_utils sample_world new_Beta
    = Done (w', Feature_with_pk 2 new_Beta)
    ∧ features w' = [feature_1; Feature_with_pk 2 new_Beta]
    ∧ FeatureState.feature_states (states w')
      = ([default_state; state_S1] ++ created)%list
    ∧ map FeatureState.environment created = [Some 1; Some 2]%Z
    ∧ Forall (λ r, FeatureState.feature r = Feature_with_pk 2 new_Beta
                   ∧ is_default r
                   ∧ FeatureState.enabled r = true
                   ∧ is_Some (FeatureState.pk r)) created.
Proof.
  assert (NoDup (project_environments sample_world (Feature.project new_Beta)))
    as Hnodup.
  { apply NoDup_cons. split; [|apply NoDup_singleton].
    intros [=]%list_elem_of_singleton. }
  assert (∀ r, In r (FeatureState.feature_states (states sample_world)) →
               Feature.pk (FeatureState.feature r)
               ≠ Some (Feature_next_pk (features sample_world))) as Hfresh.
  { intros r [<-|[<-|[]]]; discriminate. }
  exact (@Feature_save_new_creates_defaults spec_utils sample_world new_Beta
           eq_refl eq_refl Hnodup Hfresh).
Defined.

Lemma Feature_save_stopped_by_missing_default_witness :
  (∃ e, @Feature_save spec_utils world_without_default feature_1 = Failed e)
  ∧ @Feature_save spec_utils world_without_default feature_1
    = Failed (Raised (ValidationError FeatureState.duplicate_message)).
Proof.
  split; [|reflexivity].
  assert (NoDup (map FeatureState.pk
                   (FeatureState.feature_states (states world_without_default))))
    as Hkeys by (apply NoDup_singleton).
  assert (In 1%Z (project_environments world_without_default
                    (Feature.project feature_1))) as Henv by (left; reflexivity).
  apply (@Feature_save_stopped_by_missing_default spec_utils
           world_without_default feature_1 feature_1 1%Z eq_refl eq_refl eq_refl
           Hkeys Henv).
  - exists identity_state. split; [left; reflexivity|]. split; reflexivity.
  - intros r [<-|[]]. reflexivity.
Defined.

(** * The table keeps one default per environment and feature *)

Section OneDefault.
Context `{FeatureUtils}.
Implicit Types (db : FeatureState.Database) (rows : list FeatureState.t)
  (r s : FeatureState.t).

Lemma violated_none_inv rows s :
  FeatureState.violated rows s = None →
  ∀ r, In r rows → FeatureState.conflict r s = None.
Proof.
  induction rows as [|x rows IH]; simpl; [intros _ r []|].
  destruct (FeatureState.conflict x s) eqn:Hx; [discriminate|].
  intros Hrest r [<-|Hr]; [exact Hx|exact (IH Hrest r Hr)].
Qed.

(** Two defaults of one pair break [unique_for_environment]. *)
Lemma conflict_of_same_default_key r s key :
  default_key r = Some key → default_key s = Some key →
  FeatureState.conflict r s ≠ None.
Proof.
  unfold default_key, FeatureState.conflict, FeatureState.feature_segment_id.
  destruct (FeatureState.identity r), (FeatureState.feature_segment r),
    (FeatureState.environment r) as [e|],
    (Feature.pk (FeatureState.feature r)) as [f|]; try discriminate.
  intros [= <-].
  destruct (FeatureState.identity s), (FeatureState.feature_segment s),
    (FeatureState.environment s) as [e'|],
    (Feature.pk (FeatureState.feature s)) as [f'|]; try discriminate.
  intros [= -> ->]. simpl. rewrite !Z.eqb_refl. simpl. discriminate.
Qed.

(** The rows a write was checked against. *)
Lemma Model_save_checked rows s rows' k :
  FeatureState.Model_save rows s = Return (rows', k) →
  ∀ r, In r rows → FeatureState.pk r ≠ Some k →
       FeatureState.conflict r s = None.
Proof.
  unfold FeatureState.Model_save.
  destruct (FeatureState.pk s) as [j|].
  - destruct (FeatureState.violated _ s) eqn:Hv; [discriminate|].
    intros Hret r Hr Hpk.
    assert (k = j) as -> by (destruct (existsb _ rows); congruence).
    apply (violated_none_inv _ _ Hv). apply filter_In. split; [exact Hr|].
    apply negb_true_iff, bool_decide_eq_false, Hpk.
  - destruct (FeatureState.violated rows s) eqn:Hv; [discriminate|].
    intros _ r Hr _. exact (violated_none_inv _ _ Hv r Hr).
Qed.

Lemma default_key_with_pk k s :
  default_key (FeatureState.with_pk k s) = default_key s.
Proof. reflexivity. Qed.

(** X20. A successful [save] keeps the state table well keyed: primary keys
    stay unique, and if no two default rows stood for the same environment
    and feature before, none do afterwards. *)
Theorem save_keeps_one_default db s db' saved :
  FeatureState.save db s = Return (db', saved) →
  well_keyed (FeatureState.feature_states db) →
  well_keyed (FeatureState.feature_states db').
Proof.
  intros Hsave [Hkeys Hone].
  apply save_inv in Hsave as (rows & k & Hmodel & -> & ->). simpl.
  pose proof (Model_save_checked _ _ _ _ Hmodel) as Hchecked.
  apply Model_save_rows in Hmodel as [(Hpk & -> & ->)|(Hpk & ->)].
  - (* a row is added under the next key *)
    split.
    + rewrite map_app. simpl. apply NoDup_app. split; [exact Hkeys|].
      split; [|apply NoDup_singleton].
      intros pk Hin ->%list_elem_of_singleton.
      apply list_elem_of_In, in_map_iff in Hin as (r & Hr & Hin).
      exact (next_pk_fresh _ r Hin Hr).
    + intros r1 r2 key [Hr1|[<-|[]]]%in_app_or [Hr2|[<-|[]]]%in_app_or K1 K2.
      * exact (Hone r1 r2 key Hr1 Hr2 K1 K2).
      * destruct (conflict_of_same_default_key r1 s key K1 K2).
        apply Hchecked; [exact Hr1|]. apply next_pk_fresh, Hr1.
      * destruct (conflict_of_same_default_key r2 s key K2 K1).
        apply Hchecked; [exact Hr2|]. apply next_pk_fresh, Hr2.
      * reflexivity.
  - destruct (existsb _ (FeatureState.feature_states db)) eqn:Hex.
    + (* the row of this key is replaced *)
      split.
      * rewrite map_map. erewrite map_ext; [exact Hkeys|]. intros r. simpl.
        case_bool_decide; congruence.
      * intros r1' r2' key (r1 & <- & Hr1)%in_map_iff (r2 & <- & Hr2)%in_map_iff.
        repeat case_bool_decide; intros K1 K2.
        -- reflexivity.
        -- destruct (conflict_of_same_default_key r2 s key K2 K1).
           apply Hchecked; assumption.
        -- destruct (conflict_of_same_default_key r1 s key K1 K2).
           apply Hchecked; assumption.
        -- exact (Hone r1 r2 key Hr1 Hr2 K1 K2).
    + (* a row is added under a key that was free *)
      assert (∀ r, In r (FeatureState.feature_states db) →
                   FeatureState.pk r ≠ Some k) as Hfree.
      { intros r Hr Hrk.
        assert (existsb (λ r, bool_decide (FeatureState.pk r = Some k))
                  (FeatureState.feature_states db) = true) as Hyes; [|congruence].
        apply existsb_exists. exists r. split; [exact Hr|].
        apply bool_decide_eq_true, Hrk. }
      split.
      * rewrite map_app. simpl. apply NoDup_app. split; [exact Hkeys|].
        split; [|apply NoDup_singleton].
        intros pk Hin ->%list_elem_of_singleton.
        apply list_elem_of_In, in_map_iff in Hin as (r & Hr & Hin).
        apply (Hfree r Hin). congruence.
      * intros r1 r2 key [Hr1|[<-|[]]]%in_app_or [Hr2|[<-|[]]]%in_app_or K1 K2.
        -- exact (Hone r1 r2 key Hr1 Hr2 K1 K2).
        -- destruct (conflict_of_same_default_key r1 s key K1 K2).
           apply Hchecked; [exact Hr1|]. apply Hfree, Hr1.
        -- destruct (conflict_of_same_default_key r2 s key K2 K1).
           apply Hchecked; [exact Hr2|]. apply Hfree, Hr2.
        -- reflexivity.
Qed.

Lemma for_each_keeps_one_default feature defaults envs db db' :
  for_each (λ db env, update_or_create db feature env defaults) db envs
  = Done db' →
  well_keyed (FeatureState.feature_states db) →
  well_keyed (FeatureState.feature_states db').
Proof.
  revert db. induction envs as [|env envs IH]; intros db; simpl.
  - intros [= <-]. done.
  - destruct (update_or_create db feature env defaults) as [db1|e] eqn:Hstep;
      [|discriminate].
    simpl. intros Hrest Hwell. apply (IH _ Hrest).
    apply update_or_create_inv in Hstep as (s & saved & Hsave & _).
    exact (save_keeps_one_default _ _ _ _ Hsave Hwell).
Qed.

Lemma well_keyed_filter (f : FeatureState.t → bool) rows :
  well_keyed rows → well_keyed (List.filter f rows).
Proof.
  intros [Hkeys Hone]. split.
  - clear Hone. induction rows as [|r rows IH]; simpl; [constructor|].
    apply NoDup_cons in Hkeys as [Hnotin Hkeys].
    destruct (f r); [|exact (IH Hkeys)]. simpl. apply NoDup_cons.
    split; [|exact (IH Hkeys)].
    intros Hin. apply Hnotin.
    apply list_elem_of_In, in_map_iff in Hin as (x & Hx & Hin).
    apply filter_In in Hin as [Hin _].
    apply list_elem_of_In, in_map_iff. eauto.
  - intros r1 r2 key [Hr1 _]%filter_In [Hr2 _]%filter_In.
    exact (Hone r1 r2 key Hr1 Hr2).
Qed.

(** X21. A successful [Feature.save] keeps the state table well keyed, on
    every path: creation, update and move to another project leave primary
    keys unique and at most one default row per environment and feature. *)
Theorem Feature_save_keeps_one_default w (self saved : Feature.t) w' :
  Feature_save w self = Done (w', saved) →
  well_keyed (FeatureState.feature_states (states w)) →
  well_keyed (FeatureState.feature_states (states w')).
Proof.
  intros Hsave Hwell.
  apply Feature_save_inv in Hsave
    as (defaults & db & stored & k & Hprep & _ & _ & Hloop & _).
  apply (for_each_keeps_one_default _ _ _ _ _ Hloop).
  destruct Hprep as [(_ & _ & ->)|(_ & _ & old_feature & _ & ->)];
    [exact Hwell|].
  destruct (negb _); [|exact Hwell]. simpl. apply well_keyed_filter, Hwell.
Qed.

End OneDefault.

Lemma sample_world_well_keyed :
  well_keyed (FeatureState.feature_states (states sample_world)).
Proof.
  split.
  - apply NoDup_cons. split; [|apply NoDup_singleton].
    intros [=]%list_elem_of_singleton.
  - intros r1 r2 key [<-|[<-|[]]] [<-|[<-|[]]] K1 K2;
      try reflexivity; discriminate.
Qed.

Lemma save_keeps_one_default_witness :
  ∃ db' saved,
    @FeatureState.save spec_utils (states sample_world) (new_default 2)
    = Return (db', saved)
    ∧ well_keyed (FeatureState.feature_states db').
Proof.
  eexists _, _. split; [reflexivity|].
  exact (@save_keeps_one_default spec_utils (states sample_world) (new_default 2)
           _ _ eq_refl sample_world_well_keyed).
Defined.

Lemma Feature_save_keeps_one_default_witness :
  ∃ w' saved,
    @Feature_save spec_utils sample_world feature_1_moved = Done (w', saved)
    ∧ well_keyed (FeatureState.feature_states (states w')).
Proof.
  eexists _, _. split; [reflexivity|].
  exact (@Feature_save_keeps_one_default spec_utils sample_world feature_1_moved
           _ _ eq_refl sample_world_well_keyed).
Defined.

(** * Rows that outlive an update of a feature *)

Section KeptRows.
Context `{FeatureUtils}.
Implicit Types (db : FeatureState.Database) (w : World).

Lemma for_each_keeps (feature : Feature.t) (envs : list Z) db db' :
  NoDup (map FeatureState.pk (FeatureState.feature_states db)) →
  for_each (λ db env, update_or_create db feature env ∅) db envs = Done db' →
  ∀ r, In r (FeatureState.feature_states db) →
       ∃ r', In r' (FeatureState.feature_states db') ∧ columns r' = columns r.
Proof.
  revert db. induction envs as [|env envs IH]; intros db Hkeys; simpl.
  - intros [= <-] r Hr. eauto.
  - destruct (update_or_create db feature env ∅) as [db1|e] eqn:Hstep;
      [|discriminate].
    simpl. intros Hrest r Hr.
    destruct (update_or_create_keeps _ _ _ _ Hkeys Hstep) as [Hkeys1 Hkept].
    destruct (Hkept r Hr) as (r1 & Hr1 & Hcols1).
    destruct (IH db1 Hkeys1 Hrest r1 Hr1) as (r' & Hr' & Hcols).
    exists r'. split; [exact Hr'|congruence].
Qed.

(** X22. Saving a stored feature without changing its project loses no state
    row, primary keys being unique: every row present before a successful
    [Feature.save] is present afterwards with the same primary key, feature,
    environment, identity, segment and [enabled] flag. *)
Theorem Feature_save_existing_keeps_rows w (self saved old_feature : Feature.t) w' :
  Feature_pk_truthy self = true →
  find (λ r, bool_decide (Feature.pk r = Feature.pk self)) (features w)
  = Some old_feature →
  Feature.project old_feature = Feature.project self →
  NoDup (map FeatureState.pk (FeatureState.feature_states (states w))) →
  Feature_save w self = Done (w', saved) →
  ∀ r, In r (FeatureState.feature_states (states w)) →
       ∃ r', In r' (FeatureState.feature_states (states w'))
             ∧ columns r' = columns r.
Proof.
  intros Htruthy Hold Hsame Hkeys Hsave.
  apply Feature_save_inv in Hsave
    as (defaults & db & stored & k & Hprep & _ & _ & Hloop & _).
  destruct Hprep as [(Hfalse & _)|(_ & -> & old' & Hold' & ->)]; [congruence|].
  rewrite Hold in Hold'. injection Hold' as <-.
  rewrite (proj2 (negb_false_iff _)) in Hloop by (apply Z.eqb_eq, Hsame).
  exact (for_each_keeps _ _ _ _ Hkeys Hloop).
Qed.

End KeptRows.

Lemma Feature_save_existing_keeps_rows_witness :
  ∃ w' saved,
    @Feature_save spec_utils sample_world feature_1 = Done (w', saved)
    ∧ ∀ r, In r [default_state; state_S1] →
           ∃ r', In r' (FeatureState.feature_states (states w'))
                 ∧ columns r' = columns r.
Proof.
  eexists _, _. split; [reflexivity|].
  exact (@Feature_save_existing_keeps_rows spec_utils sample_world feature_1
           _ feature_1 _ eq_refl eq_refl eq_refl
           (proj1 sample_world_well_keyed) eq_refl).
Defined.
